(** * Verification of [scripts/preload_models.py]

    A shallow embedding of the provisioning script: the catalog of weight
    files, the interactive selection loop, the fetch-or-skip download, the
    legacy rename and the rewrite of [configs/models.yaml].

    The script is stateful and fallible, so it is embedded in a small state
    and exception monad over a [world] made of the local filesystem, the
    operator's pending answers, the stored access token and a trace of the
    observable events.  Library calls ([hf_hub_download], [OmegaConf.load],
    [OmegaConf.to_yaml], the system calls) are parameters of the model. *)

From Stdlib Require Import Ascii ZArith Lia.
From Stdlib Require String.
From stdpp Require Import base option list gmap strings.

Local Open Scope Z_scope.

(** ** [os.path] on POSIX strings *)

Module posixpath.

Definition sep : ascii := "/"%char.

Definition is_sep (c : ascii) : bool := Ascii.eqb c sep.

Definition startswith_sep (s : string) : bool :=
  match s with
  | String c _ => is_sep c
  | EmptyString => false
  end.

Fixpoint endswith_sep (s : string) : bool :=
  match s with
  | EmptyString => false
  | String c EmptyString => is_sep c
  | String _ r => endswith_sep r
  end.

Definition is_empty (s : string) : bool :=
  match s with EmptyString => true | _ => false end.

(** [posixpath.join(a, b)]: an absolute [b] replaces [a]; a separator is
    inserted unless [a] is empty or already ends with one. *)
Definition join (a b : string) : string :=
  if startswith_sep b then b
  else if is_empty a || endswith_sep a then a +:+ b
  else a +:+ "/" +:+ b.

Fixpoint drop_while (p : ascii -> bool) (l : list ascii) : list ascii :=
  match l with
  | [] => []
  | c :: l' => if p c then drop_while p l' else l
  end.

(** [posixpath.dirname(p)]: everything up to the last separator, with
    trailing separators stripped unless the head is made of separators
    only. *)
Definition dirname (p : string) : string :=
  let rhead :=
    drop_while (fun c => negb (is_sep c))
               (rev (String.list_ascii_of_string p)) in
  if forallb is_sep rhead
  then String.string_of_list_ascii (rev rhead)
  else String.string_of_list_ascii (rev (drop_while is_sep rhead)).

End posixpath.

(** ** Python dictionaries

    A [dict] keeps its keys in insertion order; assigning to a key that is
    present replaces the value in place, assigning to a new key appends. *)

Definition dict (V : Type) : Type := list (string * V).

Section Dict.
Context {V : Type}.

Fixpoint dict_get (k : string) (d : dict V) : option V :=
  match d with
  | [] => None
  | (k', v) :: d' => if String.eqb k k' then Some v else dict_get k d'
  end.

Fixpoint dict_set (k : string) (v : V) (d : dict V) : dict V :=
  match d with
  | [] => [(k, v)]
  | (k', v') :: d' =>
      if String.eqb k k' then (k, v) :: d' else (k', v') :: dict_set k v d'
  end.

(** [d.pop(k, None)] with the popped value dropped.  The keys of a
    dictionary are distinct, so at most one entry goes. *)
Fixpoint dict_pop (k : string) (d : dict V) : dict V :=
  match d with
  | [] => []
  | (k', v') :: d' =>
      if String.eqb k k' then dict_pop k d' else (k', v') :: dict_pop k d'
  end.

Definition dict_keys (d : dict V) : list string := d.*1.

End Dict.

(** ** YAML documents handled by OmegaConf *)

#[warnings="-register-all"]
Inductive yaml : Type :=
| YStr (s : string)
| YInt (z : Z)
| YBool (b : bool)
| YNull
| YSeq (items : list yaml)
| YMap (fields : list (string * yaml)).

(** The root of [models.yaml]: an ordered mapping from stanza name to node. *)
Definition conf_t : Type := dict yaml.

(** ** The catalog *)

Record descriptor : Type := Descriptor {
  description : string;
  repo_id : string;
  config : string;
  file : string;
  recommended : bool;
  width : Z;
  height : Z
}.

Definition Model_dir : string := "./models/ldm/stable-diffusion-v1/".
Definition Config_file : string := "./configs/models.yaml".
Definition SD_Configs : string := "./configs/stable-diffusion".

Definition Datasets : dict descriptor :=
  [ ("stable-diffusion-1.5",
     {| description := "The newest Stable Diffusion version 1.5 weight file (4.27 GB)";
        repo_id := "runwayml/stable-diffusion-v1-5";
        config := "v1-inference.yaml";
        file := "v1-5-pruned-emaonly.ckpt";
        recommended := true; width := 512; height := 512 |});
    ("inpainting-1.5",
     {| description := "RunwayML SD 1.5 model optimized for inpainting (4.27 GB)";
        repo_id := "runwayml/stable-diffusion-inpainting";
        config := "v1-inpainting-inference.yaml";
        file := "sd-v1-5-inpainting.ckpt";
        recommended := true; width := 512; height := 512 |});
    ("stable-diffusion-1.4",
     {| description := "The original Stable Diffusion version 1.4 weight file (4.27 GB)";
        repo_id := "CompVis/stable-diffusion-v-1-4-original";
        config := "v1-inference.yaml";
        file := "sd-v1-4.ckpt";
        recommended := false; width := 512; height := 512 |});
    ("waifu-diffusion-1.3",
     {| description := "Stable Diffusion 1.4 fine tuned on anime-styled images (4.27)";
        repo_id := "hakurei/waifu-diffusion-v1-3";
        config := "v1-inference.yaml";
        file := "model-epoch09-float32.ckpt";
        recommended := false; width := 512; height := 512 |});
    ("ft-mse-improved-autoencoder-840000",
     {| description := "StabilityAI improved autoencoder fine-tuned for human faces (recommended; 335 MB)";
        repo_id := "stabilityai/sd-vae-ft-mse-original";
        config := "VAE";
        file := "vae-ft-mse-840000-ema-pruned.ckpt";
        recommended := true; width := 512; height := 512 |}) ].

Definition Config_preamble : string :=
  "# This file describes the alternative machine learning models
# available to InvokeAI script.
#
# To add a new model, follow the examples below. Each
# model requires a model config file, a weights file,
# and the width and height of the images it
# was trained on.
".

(** The expected local path of a weight file: [os.path.join(Model_dir, name)]. *)
Definition model_dest_of (model_name : string) : string :=
  posixpath.join Model_dir model_name.

(** [Datasets[model]['config'] == 'VAE'] *)
Definition is_vae (d : descriptor) : bool := String.eqb (config d) "VAE".

(** ** The world the script runs in *)

(** What the operator does at a prompt; an exhausted list is end of input. *)
Inductive action : Type :=
| Line (s : string)
| Interrupt.

Inductive exn : Type :=
| KeyboardInterrupt
| SystemExit (code : Z)
| EOFError
| IndexError
| AttributeError
| KeyError (k : string)
| TypeError
| FileNotFoundError (path : string)
| FileExistsError (path : string)
| OSError (detail : string)
| HubError (detail : string)
| YAMLError.

(** [except Exception] catches everything but the two [BaseException]s. *)
Definition is_Exception (e : exn) : bool :=
  match e with
  | KeyboardInterrupt | SystemExit _ => false
  | _ => true
  end.

(** [str(e)] as far as the messages of the script show it. *)
Definition exn_str (e : exn) : string :=
  match e with
  | KeyError k => k
  | FileNotFoundError p | FileExistsError p => p
  | OSError d | HubError d => d
  | _ => EmptyString
  end.

Inductive outcome (A : Type) : Type :=
| Val (a : A)
| Raise (e : exn).
Arguments Val {A} a.
Arguments Raise {A} e.

(** The calls into the operating system that can fail for reasons outside
    the model (permissions, full disk, ...). *)
Inductive syscall : Type :=
| SysMakedirs (path : string)
| SysLink (dest : string)
| SysOpenW (path : string)
| SysWrite (path data : string)
| SysRename (src dst : string).

(** The texts the script prints, one constructor per [print] statement. *)
Inductive msg : Type :=
| MIntroduction
| MPostscript
| MWeightSelection
| MLicenseAgreement
| MDownloadingWeights
| MDownloadingSupport
| MGoodbye
| MChoose
| MDatasetItem (counter : Z) (ds description : string) (recommended : bool)
| MWillDownload
| MSelected (counter : Z) (ds : string) (dflt : bool)
| MDefaultLegend
| MAuthSteps
| MAuthTokenStep
| MLegacyFound
| MRenaming (new_name : string)
| MExists (model_name : string)
| MDownloading (model_name : string)
| MDownloadError (model_name detail : string)
| MInstalled (keys : list string)
| MConfigError (path detail : string)
| MConfigCreated (path : string).

Inductive event : Type :=
| Print (m : msg)
| Prompt (text : string)
| HubDownload (repo filename token : string).

(** Directories are not tracked: [fs] maps the path of each regular file to
    its content.  [trace] is newest first. *)
Record world : Type := World {
  fs : gmap string string;
  stdin : list action;
  hf_token : option string;
  trace : list event
}.

Definition set_fs (f : gmap string string) (w : world) : world :=
  {| fs := f; stdin := stdin w; hf_token := hf_token w; trace := trace w |}.
Definition set_stdin (i : list action) (w : world) : world :=
  {| fs := fs w; stdin := i; hf_token := hf_token w; trace := trace w |}.
Definition set_hf_token (t : option string) (w : world) : world :=
  {| fs := fs w; stdin := stdin w; hf_token := t; trace := trace w |}.
Definition log (e : event) (w : world) : world :=
  {| fs := fs w; stdin := stdin w; hf_token := hf_token w;
     trace := e :: trace w |}.

(** ** The monad *)

Definition M (A : Type) : Type := world -> outcome A * world.

#[global] Instance outcome_ret : MRet outcome := fun A a => Val a.
#[global] Instance outcome_bind : MBind outcome := fun A B f m =>
  match m with
  | Val a => f a
  | Raise e => Raise e
  end.

#[global] Instance M_ret : MRet M := fun A a w => (Val a, w).
#[global] Instance M_bind : MBind M := fun A B f m w =>
  match m w with
  | (Val a, w') => f a w'
  | (Raise e, w') => (Raise e, w')
  end.

Definition raise {A : Type} (e : exn) : M A := fun w => (Raise e, w).

Definition lift {A : Type} (o : outcome A) : M A := fun w => (o, w).

(** [try: body except Exception as e: handler(e)] *)
Definition try_except {A : Type} (body : M A) (handler : exn -> M A) : M A :=
  fun w =>
    match body w with
    | (Raise e, w') =>
        if is_Exception e then handler e w' else (Raise e, w')
    | r => r
    end.

(** [try: body except KeyboardInterrupt: handler] *)
Definition try_except_interrupt (body : M unit) (handler : M unit) : M unit :=
  fun w =>
    match body w with
    | (Raise KeyboardInterrupt, w') => handler w'
    | r => r
    end.

Definition emit (e : event) : M unit := fun w => (Val tt, log e w).

Definition print (m : msg) : M unit := emit (Print m).

(** [input(prompt)] *)
Definition input (prompt : string) : M string := fun w =>
  let w' := log (Prompt prompt) w in
  match stdin w with
  | [] => (Raise EOFError, w')
  | Line s :: rest => (Val s, set_stdin rest w')
  | Interrupt :: rest => (Raise KeyboardInterrupt, set_stdin rest w')
  end.

Definition sys_exit {A : Type} (code : Z) : M A := raise (SystemExit code).

(** ** Collaborators outside the script *)

Inductive hub_reply : Type :=
| HubFile (content : string)
| HubFailure (detail : string).

Record library : Type := Library {
  (** the remote store: what [hf_hub_download(repo, filename, token)] gets *)
  hub : string -> string -> string -> hub_reply;
  (** the YAML parser behind [OmegaConf.load]; [None] is a parse error *)
  yaml_parse : string -> option conf_t;
  (** [OmegaConf.to_yaml]; [None] is a serialization error *)
  to_yaml : conf_t -> option string;
  (** system calls that fail for a reason outside the model, with the detail *)
  io_fault : syscall -> option string;
  (** the seven [download_*] routines for the support models *)
  download_support_models : M unit
}.

Definition dq : string := String (ascii_of_nat 34) EmptyString.

Section Script.

(** The table [Datasets] of the script, passed explicitly. *)
Variable catalog : dict descriptor.
Variable L : library.

(** *** System calls *)

Definition guard (c : syscall) : M unit :=
  match io_fault L c with
  | Some detail => raise (OSError detail)
  | None => mret tt
  end.

Definition read_fs : M (gmap string string) := fun w => (Val (fs w), w).
Definition write_fs (f : gmap string string) : M unit := fun w =>
  (Val tt, set_fs f w).

Definition os_path_exists (path : string) : M bool :=
  f ← read_fs;
  mret (bool_decide (is_Some (f !! path))).

(** [os.makedirs(path, exist_ok=True)] *)
Definition os_makedirs (path : string) : M unit := guard (SysMakedirs path).

(** [os.rename(src, dst)]: replaces [dst] when it exists. *)
Definition os_rename (src dst : string) : M unit :=
  guard (SysRename src dst);;
  f ← read_fs;
  match f !! src with
  | None => raise (FileNotFoundError src)
  | Some content => write_fs (<[dst := content]> (delete src f))
  end.

(** [Path.link_to(dest)]: a new name for an existing file. *)
Definition link_to (content dest : string) : M unit :=
  guard (SysLink dest);;
  f ← read_fs;
  match f !! dest with
  | Some _ => raise (FileExistsError dest)
  | None => write_fs (<[dest := content]> f)
  end.

(** [open(path, 'w')]: creates or truncates. *)
Definition open_w (path : string) : M unit :=
  guard (SysOpenW path);;
  f ← read_fs;
  write_fs (<[path := EmptyString]> f).

(** [outfile.write(data)] on a file opened at [path]. *)
Definition file_write (path data : string) : M unit :=
  guard (SysWrite path data);;
  f ← read_fs;
  match f !! path with
  | None => raise (FileNotFoundError path)
  | Some old => write_fs (<[path := old +:+ data]> f)
  end.

Definition hf_hub_download (repo filename token : string) : M string :=
  emit (HubDownload repo filename token);;
  match hub L repo filename token with
  | HubFile content => mret content
  | HubFailure detail => raise (HubError detail)
  end.

Definition OmegaConf_load (path : string) : M conf_t :=
  f ← read_fs;
  match f !! path with
  | None => raise (FileNotFoundError path)
  | Some text =>
      match yaml_parse L text with
      | None => raise YAMLError
      | Some conf => mret conf
      end
  end.

(** [Datasets[name]] *)
Definition Datasets_item (name : string) : outcome descriptor :=
  match dict_get name catalog with
  | Some d => Val d
  | None => Raise (KeyError name)
  end.

(** *** The operator *)

Definition char_in (c : ascii) (a b : ascii) : bool :=
  Ascii.eqb c a || Ascii.eqb c b.

Definition yes_or_no (prompt : string) (default_yes : bool) : M bool :=
  let default := if default_yes then "y" else "n" in
  r ← input (prompt +:+ " [" +:+ default +:+ "] ");
  let response := if posixpath.is_empty r then default else r in
  match response with
  | String c _ =>
      if default_yes then mret (negb (char_in c "n" "N"))
      else mret (char_in c "y" "Y")
  | EmptyString => raise IndexError
  end.

Definition user_wants_to_download_weights : M bool :=
  yes_or_no "Would you like to download the Stable Diffusion model weights now?" true.

(** The [for ds in Datasets.keys()] loop of [select_datasets]. *)
Fixpoint ask_datasets (keys : list string) (counter : Z) (datasets : dict Z)
  : M (dict Z) :=
  match keys with
  | [] => mret datasets
  | ds :: rest =>
      d ← lift (Datasets_item ds);
      print (MDatasetItem counter ds (description d) (recommended d));;
      b ← yes_or_no "    Download?" (recommended d);
      ask_datasets rest (counter + 1)
        (if (b : bool) then dict_set ds counter datasets else datasets)
  end.

(** The [for ds in datasets] loop: the first line printed carries the
    default mark. *)
Fixpoint show_selection (datasets : dict Z) (dflt_is_None : bool) : M unit :=
  match datasets with
  | [] => mret tt
  | (ds, counter) :: rest =>
      print (MSelected counter ds dflt_is_None);;
      show_selection rest false
  end.

(** One pass through the body of [while not done]; returns
    [(datasets, ok_to_download, done)]. *)
Definition select_round : M (dict Z * bool * bool) :=
  print MChoose;;
  datasets ← ask_datasets (dict_keys catalog) 1 [];
  print MWillDownload;;
  show_selection datasets true;;
  print MDefaultLegend;;
  ok_to_download ← yes_or_no "Ok to download?" true;
  if negb (ok_to_download : bool) then
    change ← yes_or_no "Change your selection?" true;
    if (change : bool) then mret (datasets, ok_to_download, false)
    else mret (datasets, ok_to_download, true)
  else mret (datasets, ok_to_download, true).

(** The [while] loop, by fuel; [None] is fuel exhausted. *)
Fixpoint select_datasets_loop (fuel : nat) (w : world)
  : option (outcome (option (dict Z)) * world) :=
  match fuel with
  | O => None
  | S n =>
      match select_round w with
      | (Val (datasets, ok_to_download, done), w') =>
          if done
          then Some (Val (if ok_to_download then Some datasets else None), w')
          else select_datasets_loop n w'
      | (Raise e, w') => Some (Raise e, w')
      end
  end.

(** Every round that does not end the loop has read two answers, so one
    more round than there are pending answers is enough (see
    [select_datasets_loop_enough]). *)
Definition select_datasets : M (option (dict Z)) := fun w =>
  match select_datasets_loop (S (length (stdin w))) w with
  | Some r => r
  | None => (Raise EOFError, w)
  end.

Definition HfFolder_get_token : M (option string) := fun w =>
  (Val (hf_token w), w).

Definition HfFolder_save_token (token : string) : M unit := fun w =>
  (Val tt, set_hf_token (Some token) w).

Definition getpass : M string := input "Password: ".

Definition authenticate : M string :=
  print MAuthSteps;;
  input "Press <enter> when you are ready to continue:";;
  access_token ← HfFolder_get_token;
  match (access_token : option string) with
  | Some token => mret token
  | None =>
      print MAuthTokenStep;;
      token ← getpass;
      HfFolder_save_token token;;
      mret token
  end.

(** *** Legacy rename *)

Definition legacy_path : string := posixpath.join Model_dir "model.ckpt".

Definition rename_prompt (new_name : string) : string :=
  "Ok to rename it to " +:+ dq +:+ new_name +:+ dq +:+ " for future reference?".

Definition migrate_models_ckpt : M unit :=
  present ← os_path_exists legacy_path;
  if negb (present : bool) then mret tt
  else
    d ← lift (Datasets_item "stable-diffusion-1.4");
    let new_name := file d in
    print MLegacyFound;;
    rename ← yes_or_no (rename_prompt new_name) true;
    if (rename : bool) then
      print (MRenaming new_name);;
      os_rename legacy_path (posixpath.join Model_dir new_name)
    else mret tt.

(** *** Fetch *)

Definition conditional_download (repo_id model_name access_token : string)
  : M bool :=
  let model_dest := model_dest_of model_name in
  present ← os_path_exists model_dest;
  if (present : bool) then
    print (MExists model_name);;
    mret true
  else
    os_makedirs (posixpath.dirname model_dest);;
    try_except
      (print (MDownloading model_name);;
       content ← hf_hub_download repo_id model_name access_token;
       link_to content model_dest;;
       mret true)
      (fun e =>
         print (MDownloadError model_name (exn_str e));;
         mret false).

(** The [for mod in models.keys()] loop of [download_weight_datasets]
    ([md] stands for [mod]). *)
Fixpoint download_each (keys : list string) (access_token : string)
    (successful : dict bool) : M (dict bool) :=
  match keys with
  | [] => mret successful
  | md :: rest =>
      d ← lift (Datasets_item md);
      success ← conditional_download (repo_id d) (file d) access_token;
      download_each rest access_token
        (if (success : bool) then dict_set md true successful else successful)
  end.

(** [models] is what [select_datasets] returned, [None] included. *)
Definition download_weight_datasets (models : option (dict Z))
    (access_token : string) : M (dict bool) :=
  migrate_models_ckpt;;
  keys ← match models with
         | Some m => mret (dict_keys m)
         | None => raise AttributeError
         end;
  successful ← download_each keys access_token [];
  print (MInstalled (dict_keys successful));;
  mret successful.

(** *** Config synthesis *)

(** First loop of [new_config_file_contents]: the file of the last VAE. *)
Fixpoint find_vae (models : list string) (vae : option string)
  : outcome (option string) :=
  match models with
  | [] => Val vae
  | model :: rest =>
      d ← Datasets_item model;
      find_vae rest (if is_vae d then Some (file d) else vae)
  end.

(** [stanza[...] = ...] needs [stanza] to be a mapping. *)
Definition as_mapping (node : yaml) : outcome (dict yaml) :=
  match node with
  | YMap fields => Val fields
  | _ => Raise TypeError
  end.

(** The assignments of the second loop's body to one stanza. *)
Definition write_stanza (d : descriptor) (vae : option string)
    (default_selected : bool) (stanza : dict yaml) : dict yaml :=
  let stanza := dict_set "description" (YStr (description d)) stanza in
  let stanza := dict_set "weights" (YStr (posixpath.join Model_dir (file d))) stanza in
  let stanza := dict_set "config" (YStr (posixpath.join SD_Configs (config d))) stanza in
  let stanza := dict_set "width" (YInt (width d)) stanza in
  let stanza := dict_set "height" (YInt (height d)) stanza in
  let stanza := dict_pop "default" stanza in
  let stanza :=
    match vae with
    | Some v =>
        (* [if vae:] is false for the empty string as well *)
        if posixpath.is_empty v then stanza
        else dict_set "vae" (YStr (posixpath.join Model_dir v)) stanza
    | None => stanza
    end in
  if default_selected then stanza
  else dict_set "default" (YBool true) stanza.

(** Second loop of [new_config_file_contents]. *)
Fixpoint add_stanzas (models : list string) (vae : option string)
    (default_selected : bool) (conf : conf_t) : outcome conf_t :=
  match models with
  | [] => Val conf
  | model :: rest =>
      d ← Datasets_item model;
      if is_vae d then add_stanzas rest vae default_selected conf
      else
        stanza ← match dict_get model conf with
                 | Some node => as_mapping node
                 | None => Val []
                 end;
        add_stanzas rest vae true
          (dict_set model (YMap (write_stanza d vae default_selected stanza)) conf)
  end.

(** The two loops together: the mapping that is serialized. *)
Definition synthesize (conf : conf_t) (models : list string)
  : outcome conf_t :=
  vae ← find_vae models None;
  add_stanzas models vae false conf.

Definition new_config_file_contents (successfully_downloaded : dict bool)
  : M string :=
  conf ← OmegaConf_load Config_file;
  conf' ← lift (synthesize conf (dict_keys successfully_downloaded));
  match to_yaml L conf' with
  | Some text => mret text
  | None => raise YAMLError
  end.

Definition tmpfile : string :=
  posixpath.join (posixpath.dirname Config_file) "new_config.tmp".

Definition update_config_file (successfully_downloaded : dict bool)
  : M unit :=
  ok ← try_except
         (yaml ← new_config_file_contents successfully_downloaded;
          open_w tmpfile;;
          file_write tmpfile Config_preamble;;
          file_write tmpfile yaml;;
          os_rename tmpfile Config_file;;
          mret true)
         (fun e =>
            print (MConfigError Config_file (exn_str e));;
            mret false);
  if (ok : bool) then print (MConfigCreated Config_file) else mret tt.

(** *** The script body *)

Definition introduction : M unit := print MIntroduction.
Definition postscript : M unit := print MPostscript.

Definition main : M unit :=
  try_except_interrupt
    (introduction;;
     print MWeightSelection;;
     wants ← user_wants_to_download_weights;
     (if (wants : bool) then
        models ← select_datasets;
        match (models : option (dict Z)) with
        | None =>
            quit ← yes_or_no "Quit?" false;
            if (quit : bool) then sys_exit 0 else mret tt
        | Some _ => mret tt
        end;;
        print MLicenseAgreement;;
        access_token ← authenticate;
        print MDownloadingWeights;;
        successfully_downloaded ← download_weight_datasets models access_token;
        update_config_file successfully_downloaded
      else mret tt);;
     print MDownloadingSupport;;
     download_support_models L;;
     postscript)
    (print MGoodbye).

End Script.

(** ** Vocabulary of the specification *)

(** The fields of a stanza that synthesis assigns or removes. *)
Definition managed : list string :=
  ["description"; "weights"; "config"; "width"; "height"; "default"; "vae"].

(** A stanza marked [default: true]. *)
Definition is_default (node : yaml) : bool :=
  match node with
  | YMap fields =>
      match dict_get "default" fields with
      | Some (YBool true) => true
      | _ => false
      end
  | _ => false
  end.

(** The names of the stanzas marked default, in file order. *)
Definition defaults (conf : conf_t) : list string :=
  dict_keys (filter (fun kv => is_default kv.2 = true) conf).

(** A field of the stanza called [name], if [name] is a mapping. *)
Definition stanza_field (conf : conf_t) (name field : string) : option yaml :=
  match dict_get name conf with
  | Some (YMap fields) => dict_get field fields
  | _ => None
  end.

(** How an answer is read at a prompt whose default is yes / is no. *)
Definition says_yes (default_yes : bool) (answer : string) : bool :=
  match answer with
  | EmptyString => default_yes
  | String c _ =>
      if default_yes then negb (char_in c "n" "N") else char_in c "y" "Y"
  end.

(** A request to the remote store. *)
Definition is_hub (e : event) : bool :=
  match e with
  | HubDownload _ _ _ => true
  | _ => false
  end.

(** A request to the remote store for the file called [filename]. *)
Definition is_hub_for (filename : string) (e : event) : bool :=
  match e with
  | HubDownload _ f _ => String.eqb f filename
  | _ => false
  end.

(** The remote store delivers the artifact and it can be linked in place. *)
Definition retrievable (L : library) (token : string) (d : descriptor) : bool :=
  match hub L (repo_id d) (file d) token,
        io_fault L (SysLink (model_dest_of (file d))) with
  | HubFile _, None => true
  | _, _ => false
  end.

(** The fetch of [d] succeeds from the files [f]: already there, or
    retrievable. *)
Definition fetch_succeeds (L : library) (token : string)
    (f : gmap string string) (d : descriptor) : bool :=
  bool_decide (is_Some (f !! model_dest_of (file d))) || retrievable L token d.

(** The files of the auxiliary decoders among [models], in order. *)
Definition vae_files (catalog : dict descriptor) (models : list string)
  : list string :=
  omap (fun model =>
          match dict_get model catalog with
          | Some d => if is_vae d then Some (file d) else None
          | None => None
          end) models.

(** The name is a key of the catalog. *)
Definition in_catalog (catalog : dict descriptor) (model : string) : Prop :=
  is_Some (dict_get model catalog).

(** The entry called [model], when there is one, is a mapping. *)
Definition mapping_or_absent (conf : conf_t) (model : string) : Prop :=
  match dict_get model conf with
  | Some (YMap _) | None => True
  | Some _ => False
  end.

(** The name is in the catalog and is not an auxiliary decoder. *)
Definition is_model (catalog : dict descriptor) (model : string) : bool :=
  match dict_get model catalog with
  | Some d => negb (is_vae d)
  | None => false
  end.

(** The first name of [models] that is not an auxiliary decoder. *)
Definition first_model (catalog : dict descriptor) (models : list string)
  : option string :=
  head (filter (fun model => is_model catalog model = true) models).

(** A plan item with its catalog entry, and its expected local path. *)
Definition local_path (md : string * descriptor) : string :=
  model_dest_of (file md.2).

Definition listed (catalog : dict descriptor) (md : string * descriptor) : Prop :=
  dict_get md.1 catalog = Some md.2.

(** The directory of the local path can be made (or is there). *)
Definition can_make_dir (L : library) (md : string * descriptor) : Prop :=
  io_fault L (SysMakedirs (posixpath.dirname (local_path md))) = None.

(** The text shown at a yes/no prompt. *)
Definition prompt_text (prompt : string) (default_yes : bool) : string :=
  prompt +:+ " [" +:+ (if default_yes then "y" else "n") +:+ "] ".

(** Every step of [update_config_file] succeeds, the rename included, and
    [text] is what synthesis serialized. *)
Definition all_steps_succeed (catalog : dict descriptor) (L : library)
    (successfully_downloaded : dict bool) (w : world) (text : string) : Prop :=
  new_config_file_contents catalog L successfully_downloaded w = (Val text, w) /\
  io_fault L (SysOpenW tmpfile) = None /\
  io_fault L (SysWrite tmpfile Config_preamble) = None /\
  io_fault L (SysWrite tmpfile text) = None /\
  io_fault L (SysRename tmpfile Config_file) = None.

(** What [update_config_file] leaves when it reports the error [detail]
    from the world [w]. *)
Definition reported (detail : string) (w : world) : outcome unit * world :=
  (Val tt, log (Print (MConfigError Config_file detail)) w).

(** [w'] comes from [w] by talking to the operator only: same files, same
    stored token, no request to the remote store, answers only consumed. *)
Definition quiet (w w' : world) : Prop :=
  fs w' = fs w /\
  hf_token w' = hf_token w /\
  (exists new, trace w' = new ++ trace w /\ Forall (fun e => is_hub e = false) new) /\
  (exists used, stdin w = used ++ stdin w').

(** A computation that only talks to the operator. *)
Definition interactive {A : Type} (m : M A) : Prop :=
  forall w, quiet w (m w).2.

(** A computation that has read at least one answer when it returns. *)
Definition reads_one {A : Type} (m : M A) : Prop :=
  forall w a w', m w = (Val a, w') -> (length (stdin w') < length (stdin w))%nat.

(** The world in which [main] starts the selection, after the operator
    answered the first question with [rest] still pending. *)
Definition at_selection (w : world) (rest : list action) : world :=
  set_stdin rest
    (log (Prompt (prompt_text
            "Would you like to download the Stable Diffusion model weights now?" true))
       (log (Print MWeightSelection) (log (Print MIntroduction) w))).

(** ** Fixtures for the examples *)

Definition no_fault : syscall -> option string := fun _ => None.

(** A remote store that has every file but [missing]; a parser that knows
    the documents of [docs]. *)
Definition test_library (missing : string) (docs : dict conf_t)
    (faults : syscall -> option string) : library :=
  {| hub := fun _ filename _ =>
       if String.eqb filename missing then HubFailure "404 Not Found"
       else HubFile ("weights of " +:+ filename);
     yaml_parse := fun text => dict_get text docs;
     to_yaml := fun conf =>
       Some ("<" +:+ String.concat "," (dict_keys conf) +:+ ">");
     io_fault := faults;
     download_support_models := mret tt |}.

Definition test_world (files : list (string * string)) (answers : list action)
  : world :=
  {| fs := list_to_map files; stdin := answers;
     hf_token := Some "hf_secret"; trace := [] |}.

(** The first three catalog entries as a plan, and a remote store from
    which the second is missing. *)
Definition plan3 : list (string * descriptor) := take 3 Datasets.
Definition models3 : dict Z :=
  [("stable-diffusion-1.5", 1); ("inpainting-1.5", 2); ("stable-diffusion-1.4", 3)].
Definition store_without_inpainting : library :=
  test_library "sd-v1-5-inpainting.ckpt" [] no_fault.
Definition sd14 : descriptor :=
  default (Descriptor "" "" "" "" false 0 0)
          (dict_get "stable-diffusion-1.4" Datasets).

(** A config in which the operator added a field to the stanza of the
    original model, which is also the one marked default. *)
Definition shipped_conf : conf_t :=
  [("stable-diffusion-1.4",
    YMap [("description", YStr "Stable Diffusion inference model version 1.4");
          ("weights", YStr "./models/ldm/stable-diffusion-v1/model.ckpt");
          ("config", YStr "./configs/stable-diffusion/v1-inference.yaml");
          ("width", YInt 512);
          ("height", YInt 512);
          ("note", YStr "added by the operator");
          ("default", YBool true)])].

(** A store with every file, and a parser that knows one document. *)
Definition store_with_config : library :=
  test_library EmptyString [("models: as shipped", shipped_conf)] no_fault.

(** A catalog with one model and two auxiliary decoders. *)
Definition two_decoders : dict descriptor :=
  [("model-a", Descriptor "a model" "org/a" "v1-inference.yaml" "a.ckpt" true 512 512);
   ("vae-1", Descriptor "first decoder" "org/vae1" "VAE" "first.ckpt" true 512 512);
   ("vae-2", Descriptor "second decoder" "org/vae2" "VAE" "second.ckpt" true 512 512)].

(** An operator who wants weights, keeps the recommended choices, rejects
    the plan, declines to change it, and then answers [quit] at the last
    question. *)
Definition rejecting_operator (quit : string) : list action :=
  [Line "y"; Line EmptyString; Line EmptyString; Line EmptyString;
   Line EmptyString; Line EmptyString; Line "n"; Line "n"; Line quit;
   Line EmptyString].

(** ** Further vocabulary *)

(** A computation whose exceptions all satisfy [P]. *)
Definition raises_only {A : Type} (P : exn -> Prop) (m : M A) : Prop :=
  forall w e w', m w = (Raise e, w') -> P e.

(** Running out of answers, or being interrupted. *)
Definition input_ended (e : exn) : Prop :=
  e = EOFError \/ e = KeyboardInterrupt.

(** An answer that begins with none of [y], [Y], [n], [N] (or is empty). *)
Definition unrecognized (answer : string) : bool :=
  match answer with
  | EmptyString => true
  | String c _ => negb (char_in c "y" "Y") && negb (char_in c "n" "N")
  end.

(** A file name without a path separator. *)
Definition plain_name (name : string) : bool :=
  forallb (fun c => negb (posixpath.is_sep c)) (String.list_ascii_of_string name).

(** The stanzas of the models of the list are what the second loop of the
    synthesis would write again: writing to each leaves it as it is. *)
Fixpoint settled (catalog : dict descriptor) (vae : option string)
    (models : list string) (default_selected : bool) (conf : conf_t) : Prop :=
  match models with
  | [] => True
  | model :: rest =>
      match dict_get model catalog with
      | None => False
      | Some d =>
          if is_vae d then settled catalog vae rest default_selected conf
          else
            (exists st,
               dict_get model conf = Some (YMap st) /\
               write_stanza d vae default_selected st = st) /\
            settled catalog vae rest true conf
      end
  end.

(** A disk that takes the preamble and then is full. *)
Definition full_after_preamble (c : syscall) : option string :=
  match c with
  | SysWrite _ data =>
      if String.eqb data Config_preamble then None
      else Some "No space left on device"
  | _ => None
  end.

(** A models directory that cannot be made, and a rename that is refused. *)
Definition makedirs_denied (c : syscall) : option string :=
  match c with
  | SysMakedirs _ => Some "Permission denied"
  | _ => None
  end.

Definition rename_denied (c : syscall) : option string :=
  match c with
  | SysRename _ _ => Some "Permission denied"
  | _ => None
  end.

Definition sd15 : descriptor :=
  default (Descriptor "" "" "" "" false 0 0)
          (dict_get "stable-diffusion-1.5" Datasets).

(** An operator who keeps every recommended choice and accepts the plan. *)
Definition accepting_operator : list action :=
  [Line EmptyString; Line EmptyString; Line EmptyString; Line EmptyString;
   Line EmptyString; Line "y"].

(** * Properties *)

(** ** Paths *)

Example join_model_dir :
  model_dest_of "sd-v1-4.ckpt" = "./models/ldm/stable-diffusion-v1/sd-v1-4.ckpt".
Proof. reflexivity. Qed.

Example join_absolute : posixpath.join Model_dir "/tmp/x.ckpt" = "/tmp/x.ckpt".
Proof. reflexivity. Qed.

Example join_adds_separator :
  posixpath.join SD_Configs "v1-inference.yaml"
  = "./configs/stable-diffusion/v1-inference.yaml".
Proof. reflexivity. Qed.

Example dirname_config : posixpath.dirname Config_file = "./configs".
Proof. reflexivity. Qed.

Example dirname_root : posixpath.dirname "/etc" = "/".
Proof. reflexivity. Qed.

Example dirname_plain : posixpath.dirname "models.yaml" = EmptyString.
Proof. reflexivity. Qed.

Example tmpfile_path : tmpfile = "./configs/new_config.tmp".
Proof. reflexivity. Qed.

Example legacy_path_value :
  legacy_path = "./models/ldm/stable-diffusion-v1/model.ckpt".
Proof. reflexivity. Qed.

(** ** Running the monad *)

Lemma bind_run {A B : Type} (m : M A) (f : A -> M B) (w : world) :
  (m ≫= f) w =
  match m w with
  | (Val a, w') => f a w'
  | (Raise e, w') => (Raise e, w')
  end.
Proof. reflexivity. Qed.

Lemma bind_val {A B : Type} (m : M A) (f : A -> M B) (w w' : world) (a : A) :
  m w = (Val a, w') -> (m ≫= f) w = f a w'.
Proof. intros H. rewrite bind_run, H. reflexivity. Qed.

Lemma bind_raise {A B : Type} (m : M A) (f : A -> M B) (w w' : world) (e : exn) :
  m w = (Raise e, w') -> (m ≫= f) w = (Raise e, w').
Proof. intros H. rewrite bind_run, H. reflexivity. Qed.

Lemma os_path_exists_run (path : string) (w : world) :
  os_path_exists path w = (Val (bool_decide (is_Some (fs w !! path))), w).
Proof. reflexivity. Qed.

Lemma print_run (m : msg) (w : world) : print m w = (Val tt, log (Print m) w).
Proof. reflexivity. Qed.

Section Syscalls.

Variable L : library.

Lemma guard_ok c w : io_fault L c = None -> guard L c w = (Val tt, w).
Proof. intros H. unfold guard. by rewrite H. Qed.

Lemma guard_fault c detail w :
  io_fault L c = Some detail -> guard L c w = (Raise (OSError detail), w).
Proof. intros H. unfold guard. by rewrite H. Qed.

Lemma os_rename_run src dst content w :
  io_fault L (SysRename src dst) = None ->
  fs w !! src = Some content ->
  os_rename L src dst w
  = (Val tt, set_fs (<[dst := content]> (delete src (fs w))) w).
Proof.
  intros Hio Hsrc. unfold os_rename.
  rewrite (bind_val _ _ _ _ _ (guard_ok _ w Hio)).
  rewrite (bind_val _ _ w w (fs w)) by done.
  by rewrite Hsrc.
Qed.

Lemma open_w_run path w :
  io_fault L (SysOpenW path) = None ->
  open_w L path w = (Val tt, set_fs (<[path := EmptyString]> (fs w)) w).
Proof.
  intros Hio. unfold open_w.
  rewrite (bind_val _ _ _ _ _ (guard_ok _ w Hio)).
  by rewrite (bind_val _ _ w w (fs w)).
Qed.

Lemma file_write_run path data old w :
  io_fault L (SysWrite path data) = None ->
  fs w !! path = Some old ->
  file_write L path data w
  = (Val tt, set_fs (<[path := old +:+ data]> (fs w)) w).
Proof.
  intros Hio Hold. unfold file_write.
  rewrite (bind_val _ _ _ _ _ (guard_ok _ w Hio)).
  rewrite (bind_val _ _ w w (fs w)) by done.
  by rewrite Hold.
Qed.

Lemma os_rename_fault src dst detail w :
  io_fault L (SysRename src dst) = Some detail ->
  os_rename L src dst w = (Raise (OSError detail), w).
Proof.
  intros Hio. unfold os_rename.
  by rewrite (bind_raise _ _ _ _ _ (guard_fault _ _ w Hio)).
Qed.

Lemma open_w_fault path detail w :
  io_fault L (SysOpenW path) = Some detail ->
  open_w L path w = (Raise (OSError detail), w).
Proof.
  intros Hio. unfold open_w.
  by rewrite (bind_raise _ _ _ _ _ (guard_fault _ _ w Hio)).
Qed.

Lemma file_write_fault path data detail w :
  io_fault L (SysWrite path data) = Some detail ->
  file_write L path data w = (Raise (OSError detail), w).
Proof.
  intros Hio. unfold file_write.
  by rewrite (bind_raise _ _ _ _ _ (guard_fault _ _ w Hio)).
Qed.

Lemma try_except_val {A : Type} (body : M A) handler w w' a :
  body w = (Val a, w') -> try_except body handler w = (Val a, w').
Proof. intros H. unfold try_except. by rewrite H. Qed.

Lemma try_except_caught {A : Type} (body : M A) handler w w' e :
  body w = (Raise e, w') ->
  is_Exception e = true ->
  try_except body handler w = handler e w'.
Proof. intros H He. unfold try_except. by rewrite H, He. Qed.

End Syscalls.

(** ** Fetch *)

Section Fetch.

Variable L : library.

Lemma conditional_download_present repo model_name token w :
  is_Some (fs w !! model_dest_of model_name) ->
  conditional_download L repo model_name token w
  = (Val true, log (Print (MExists model_name)) w).
Proof.
  intros Hin. unfold conditional_download.
  rewrite (bind_val _ _ w w true).
  - reflexivity.
  - rewrite os_path_exists_run. by rewrite bool_decide_eq_true_2.
Qed.

(** What a fetch does when the file is not there and the directory can be
    made: one request to the remote store, then the link. *)
Lemma conditional_download_absent repo model_name token w :
  fs w !! model_dest_of model_name = None ->
  io_fault L (SysMakedirs (posixpath.dirname (model_dest_of model_name))) = None ->
  let w1 := log (HubDownload repo model_name token)
                (log (Print (MDownloading model_name)) w) in
  conditional_download L repo model_name token w =
  match hub L repo model_name token with
  | HubFile content =>
      match io_fault L (SysLink (model_dest_of model_name)) with
      | None =>
          (Val true, set_fs (<[model_dest_of model_name := content]> (fs w)) w1)
      | Some detail =>
          (Val false, log (Print (MDownloadError model_name detail)) w1)
      end
  | HubFailure detail =>
      (Val false, log (Print (MDownloadError model_name detail)) w1)
  end.
Proof.
  intros Habs Hdir w1. unfold conditional_download.
  rewrite (bind_val _ _ w w false).
  2:{ rewrite os_path_exists_run, bool_decide_eq_false_2; [done|].
      rewrite Habs. by intros [? ?]. }
  cbv beta iota. unfold os_makedirs, guard. rewrite Hdir.
  unfold try_except, hf_hub_download, link_to, guard, read_fs, write_fs,
    print, emit, raise, mbind, M_bind, mret, M_ret. cbn.
  destruct (hub L repo model_name token) as [content|detail]; cbn; [|done].
  destruct (io_fault L (SysLink (model_dest_of model_name))); cbn; [done|].
  by rewrite Habs.
Qed.

(** When the directory cannot be made the error is not caught. *)
Lemma conditional_download_makedirs_fault repo model_name token w detail :
  fs w !! model_dest_of model_name = None ->
  io_fault L (SysMakedirs (posixpath.dirname (model_dest_of model_name)))
  = Some detail ->
  conditional_download L repo model_name token w = (Raise (OSError detail), w).
Proof.
  intros Habs Hdir. unfold conditional_download.
  rewrite (bind_val _ _ w w false).
  2:{ rewrite os_path_exists_run, bool_decide_eq_false_2; [done|].
      rewrite Habs. by intros [? ?]. }
  cbv beta iota. unfold os_makedirs, guard. by rewrite Hdir.
Qed.

(** C3.  If a file exists at the expected local path of an artifact,
    [conditional_download] answers success after printing that the file
    exists, and that message is the only change to the world: the files
    are the same and no request to the remote store is recorded.  A second
    call from the state so reached does the same. *)
Theorem fetch_already_present (repo model_name token : string) (w : world) :
  is_Some (fs w !! model_dest_of model_name) ->
  exists w1 w2 : world,
    conditional_download L repo model_name token w = (Val true, w1) /\
    conditional_download L repo model_name token w1 = (Val true, w2) /\
    fs w1 = fs w /\ fs w2 = fs w /\
    stdin w2 = stdin w /\ hf_token w2 = hf_token w /\
    trace w1 = [Print (MExists model_name)] ++ trace w /\
    trace w2 = [Print (MExists model_name); Print (MExists model_name)]
               ++ trace w.
Proof.
  intros Hin.
  exists (log (Print (MExists model_name)) w),
         (log (Print (MExists model_name)) (log (Print (MExists model_name)) w)).
  rewrite !conditional_download_present by exact Hin.
  repeat split.
Qed.

(** After any successful fetch the file is there. *)
Lemma conditional_download_success_present repo model_name token w w1 :
  conditional_download L repo model_name token w = (Val true, w1) ->
  is_Some (fs w1 !! model_dest_of model_name).
Proof.
  intros Hrun.
  destruct (fs w !! model_dest_of model_name) as [c|] eqn:Hfs.
  - rewrite conditional_download_present in Hrun by (rewrite Hfs; eauto).
    inversion Hrun; subst. cbn. rewrite Hfs. eauto.
  - destruct (io_fault L (SysMakedirs (posixpath.dirname (model_dest_of model_name))))
      as [detail|] eqn:Hdir.
    + by rewrite (conditional_download_makedirs_fault _ _ _ _ detail) in Hrun.
    + rewrite conditional_download_absent in Hrun by done.
      destruct (hub L repo model_name token); [|done].
      destruct (io_fault L (SysLink _)); [done|].
      inversion Hrun; subst. cbn. rewrite lookup_insert_eq. eauto.
Qed.

(** Repeated calls after a success are no-ops. *)
Lemma fetch_twice_after_success repo model_name token w w1 :
  conditional_download L repo model_name token w = (Val true, w1) ->
  conditional_download L repo model_name token w1
  = (Val true, log (Print (MExists model_name)) w1).
Proof.
  intros Hrun. apply conditional_download_present.
  by eapply conditional_download_success_present.
Qed.

End Fetch.

(** ** Dictionaries *)

Section DictFacts.
Context {V : Type}.
Implicit Types (d : dict V) (k : string) (v : V).

Lemma dict_get_set_eq k v d : dict_get k (dict_set k v d) = Some v.
Proof.
  induction d as [|[k' v'] d IH]; cbn.
  - by rewrite String.eqb_refl.
  - destruct (String.eqb k k') eqn:E; cbn.
    + by rewrite String.eqb_refl.
    + by rewrite E.
Qed.

Lemma dict_get_set_ne k k' v d :
  k <> k' -> dict_get k' (dict_set k v d) = dict_get k' d.
Proof.
  intros Hne. induction d as [|[k0 v0] d IH]; cbn.
  - apply not_eq_sym, String.eqb_neq in Hne. by rewrite Hne.
  - destruct (String.eqb k k0) eqn:E; cbn.
    + apply String.eqb_eq in E. subst k0.
      apply not_eq_sym, String.eqb_neq in Hne. by rewrite Hne.
    + by rewrite IH.
Qed.

Lemma dict_get_pop_eq k d : dict_get k (dict_pop k d) = None.
Proof.
  induction d as [|[k' v'] d IH]; cbn; [done|].
  destruct (String.eqb k k') eqn:E; cbn; [done|]. by rewrite E.
Qed.

Lemma dict_get_pop_ne k k' d :
  k <> k' -> dict_get k' (dict_pop k d) = dict_get k' d.
Proof.
  intros Hne. induction d as [|[k0 v0] d IH]; cbn; [done|].
  destruct (String.eqb k k0) eqn:E; cbn.
  - apply String.eqb_eq in E. subst k0.
    apply not_eq_sym, String.eqb_neq in Hne. by rewrite Hne.
  - by rewrite IH.
Qed.

Lemma dict_get_None k d : dict_get k d = None <-> k ∉ dict_keys d.
Proof.
  unfold dict_keys. induction d as [|[k' v'] d IH]; cbn.
  - split; [intros _; apply not_elem_of_nil | done].
  - rewrite not_elem_of_cons. destruct (String.eqb_spec k k'); split.
    + done.
    + intros [? _]. done.
    + intros. split; [done|]. by apply IH.
    + intros [_ ?]. by apply IH.
Qed.

Lemma dict_get_is_Some k d : is_Some (dict_get k d) <-> k ∈ dict_keys d.
Proof.
  destruct (dict_get k d) eqn:E.
  - split; [intros _ | eauto].
    destruct (decide (k ∈ dict_keys d)) as [|Hn]; [done|].
    apply dict_get_None in Hn. congruence.
  - split; [by intros [? ?]|]. intros Hin.
    apply dict_get_None in E. done.
Qed.

(** Assigning to a new key appends it. *)
Lemma dict_keys_set_fresh k v d :
  k ∉ dict_keys d -> dict_keys (dict_set k v d) = dict_keys d ++ [k].
Proof.
  unfold dict_keys. induction d as [|[k' v'] d IH]; cbn; [done|].
  rewrite not_elem_of_cons. intros [Hne Hnin].
  apply String.eqb_neq in Hne. rewrite Hne. cbn. by rewrite IH.
Qed.

(** Assigning never changes the keys that are there, nor their order. *)
Lemma dict_keys_set_present k v d :
  k ∈ dict_keys d -> dict_keys (dict_set k v d) = dict_keys d.
Proof.
  unfold dict_keys. induction d as [|[k' v'] d IH]; cbn.
  - by intros ?%elem_of_nil.
  - destruct (String.eqb_spec k k') as [->|Hne]; [done|].
    rewrite elem_of_cons. intros [?|Hin]; [done|]. cbn. by rewrite IH.
Qed.

Lemma dict_keys_set_elem k k' v d :
  k' ∈ dict_keys d -> k' ∈ dict_keys (dict_set k v d).
Proof.
  intros Hin. destruct (decide (k ∈ dict_keys d)).
  - by rewrite dict_keys_set_present.
  - rewrite dict_keys_set_fresh by done. apply elem_of_app. by left.
Qed.

Lemma dict_keys_set_self k v d : k ∈ dict_keys (dict_set k v d).
Proof.
  apply dict_get_is_Some. rewrite dict_get_set_eq. eauto.
Qed.

End DictFacts.

Lemma filter_ext_elem {A : Type} (P Q : A -> Prop)
    `{!forall x, Decision (P x)} `{!forall x, Decision (Q x)} (l : list A) :
  (forall x, x ∈ l -> P x <-> Q x) -> filter P l = filter Q l.
Proof.
  induction l as [|x l IH]; intros Hext; [done|].
  rewrite !filter_cons.
  rewrite IH by (intros y Hy; apply Hext; by right).
  destruct (decide (P x)) as [HP|HP], (decide (Q x)) as [HQ|HQ]; try done.
  - exfalso. apply HQ, Hext; [by left | done].
  - exfalso. apply HP, Hext; [by left | done].
Qed.

(** ** The operator's answers *)

Lemma yes_or_no_line prompt default_yes answer rest w :
  stdin w = Line answer :: rest ->
  yes_or_no prompt default_yes w
  = (Val (says_yes default_yes answer),
     set_stdin rest (log (Prompt (prompt_text prompt default_yes)) w)).
Proof.
  intros Hin. unfold yes_or_no, input, mbind, M_bind. rewrite Hin.
  destruct answer as [|c answer]; destruct default_yes; reflexivity.
Qed.

Lemma yes_or_no_eof prompt default_yes w :
  stdin w = [] ->
  yes_or_no prompt default_yes w
  = (Raise EOFError, log (Prompt (prompt_text prompt default_yes)) w).
Proof.
  intros Hin. unfold yes_or_no, input, mbind, M_bind. rewrite Hin.
  destruct default_yes; reflexivity.
Qed.

Lemma yes_or_no_interrupt prompt default_yes rest w :
  stdin w = Interrupt :: rest ->
  yes_or_no prompt default_yes w
  = (Raise KeyboardInterrupt,
     set_stdin rest (log (Prompt (prompt_text prompt default_yes)) w)).
Proof.
  intros Hin. unfold yes_or_no, input, mbind, M_bind. rewrite Hin.
  destruct default_yes; reflexivity.
Qed.

(** ** Legacy rename, then the fetch loop *)

Section Download.

Variable catalog : dict descriptor.
Variable L : library.
Variable token : string.

Lemma migrate_absent w :
  fs w !! legacy_path = None ->
  migrate_models_ckpt catalog L w = (Val tt, w).
Proof.
  intros Habs. unfold migrate_models_ckpt.
  rewrite (bind_val _ _ w w false); [done|].
  rewrite os_path_exists_run, bool_decide_eq_false_2; [done|].
  rewrite Habs. by intros [? ?].
Qed.

Lemma migrate_declined d14 answer rest w :
  is_Some (fs w !! legacy_path) ->
  dict_get "stable-diffusion-1.4" catalog = Some d14 ->
  stdin w = Line answer :: rest ->
  says_yes true answer = false ->
  migrate_models_ckpt catalog L w
  = (Val tt, set_stdin rest
               (log (Prompt (prompt_text (rename_prompt (file d14)) true))
                    (log (Print MLegacyFound) w))).
Proof.
  intros Hin Hcat Hstdin Hno. unfold migrate_models_ckpt.
  rewrite (bind_val _ _ w w true).
  2:{ rewrite os_path_exists_run. by rewrite bool_decide_eq_true_2. }
  cbv beta iota. cbn [negb].
  unfold lift, Datasets_item. rewrite Hcat.
  rewrite (bind_val _ _ w w d14) by done.
  rewrite (bind_val _ _ w (log (Print MLegacyFound) w) tt) by done.
  erewrite bind_val; [|by apply yes_or_no_line].
  by rewrite Hno.
Qed.

Lemma migrate_consented d14 answer rest content w :
  fs w !! legacy_path = Some content ->
  dict_get "stable-diffusion-1.4" catalog = Some d14 ->
  stdin w = Line answer :: rest ->
  says_yes true answer = true ->
  io_fault L (SysRename legacy_path (model_dest_of (file d14))) = None ->
  migrate_models_ckpt catalog L w
  = (Val tt,
     set_fs (<[model_dest_of (file d14) := content]> (delete legacy_path (fs w)))
       (log (Print (MRenaming (file d14)))
          (set_stdin rest
             (log (Prompt (prompt_text (rename_prompt (file d14)) true))
                  (log (Print MLegacyFound) w))))).
Proof.
  intros Hin Hcat Hstdin Hyes Hio. unfold migrate_models_ckpt.
  rewrite (bind_val _ _ w w true).
  2:{ rewrite os_path_exists_run, bool_decide_eq_true_2; [done|].
      rewrite Hin. eauto. }
  cbv beta iota. cbn [negb].
  unfold lift, Datasets_item. rewrite Hcat.
  rewrite (bind_val _ _ w w d14) by done.
  rewrite (bind_val _ _ w (log (Print MLegacyFound) w) tt) by done.
  erewrite bind_val; [|by apply yes_or_no_line].
  rewrite Hyes.
  erewrite bind_val; [|by apply print_run].
  by erewrite os_rename_run.
Qed.

(** The result of one fetch when the directory can be made: the answer,
    the files left alone, and what is printed. *)
Lemma conditional_download_outcome d w :
  can_make_dir L ("", d) ->
  exists (w' : world) (new : list event),
    conditional_download L (repo_id d) (file d) token w
    = (Val (fetch_succeeds L token (fs w) d), w') /\
    (forall p, p <> model_dest_of (file d) -> fs w' !! p = fs w !! p) /\
    trace w' = new ++ trace w /\
    (Print (MExists (file d)) ∈ new \/ Print (MDownloading (file d)) ∈ new) /\
    (fetch_succeeds L token (fs w) d = false ->
     exists detail, Print (MDownloadError (file d) detail) ∈ new).
Proof.
  unfold can_make_dir, local_path. cbn. intros Hdir.
  unfold fetch_succeeds, retrievable.
  destruct (fs w !! model_dest_of (file d)) as [c|] eqn:Hfs.
  - rewrite conditional_download_present by (rewrite Hfs; eauto).
    rewrite bool_decide_eq_true_2 by eauto. cbn.
    eexists _, [_]. split; [done|]. cbn.
    repeat split; [|done]. left. by apply list_elem_of_singleton.
  - rewrite conditional_download_absent by done.
    rewrite bool_decide_eq_false_2 by (by intros [? ?]). cbn.
    destruct (hub L (repo_id d) (file d) token) as [content|detail].
    + destruct (io_fault L (SysLink _)) as [detail|].
      * eexists _, [_; _; _]. split; [done|]. cbn. repeat split.
        -- right. set_solver.
        -- intros _. exists detail. set_solver.
      * eexists _, [_; _]. split; [done|]. cbn.
        split; [|split; [done|split; [right; set_solver|done]]].
        intros p Hp. by rewrite lookup_insert_ne.
    + eexists _, [_; _; _]. split; [done|]. cbn. repeat split.
      * right. set_solver.
      * intros _. exists detail. set_solver.
Qed.

Lemma listed_functional md md' :
  listed catalog md -> listed catalog md' -> md.1 = md'.1 -> local_path md = local_path md'.
Proof.
  unfold listed, local_path. intros H1 H2 Heq. rewrite Heq in H1. congruence.
Qed.

(** The loop over the plan: it runs to the end, the names it records are
    the plan items whose fetch succeeds, in plan order, every item is
    attempted, and only the local paths of the plan are touched. *)
Lemma download_each_spec (plan : list (string * descriptor)) :
  Forall (listed catalog) plan ->
  NoDup (local_path <$> plan) ->
  Forall (can_make_dir L) plan ->
  forall (successful : dict bool) (w : world),
    (forall md, md ∈ plan -> md.1 ∉ dict_keys successful) ->
    exists (successful' : dict bool) (w' : world) (new : list event),
      download_each catalog L plan.*1 token successful w
      = (Val successful', w') /\
      dict_keys successful'
      = dict_keys successful
        ++ (filter (fun md => fetch_succeeds L token (fs w) md.2 = true) plan).*1 /\
      (forall p, p ∉ (local_path <$> plan) -> fs w' !! p = fs w !! p) /\
      trace w' = new ++ trace w /\
      Forall (fun md =>
                (Print (MExists (file md.2)) ∈ new
                 \/ Print (MDownloading (file md.2)) ∈ new) /\
                (fetch_succeeds L token (fs w) md.2 = false ->
                 exists detail, Print (MDownloadError (file md.2) detail) ∈ new))
             plan.
Proof.
  induction plan as [|[m d] plan IH]; intros Hlisted Hnodup Hdirs successful w Hfresh.
  - exists successful, w, []. cbn. rewrite app_nil_r. by repeat split.
  - apply Forall_cons in Hlisted as [Hm Hlisted].
    apply Forall_cons in Hdirs as [Hd Hdirs].
    rewrite fmap_cons in Hnodup. apply NoDup_cons in Hnodup as [Hnotin Hnodup].
    destruct (conditional_download_outcome d w Hd)
      as (w1 & new1 & Hrun & Hfs1 & Htr1 & Hatt1 & Herr1).
    set (b := fetch_succeeds L token (fs w) d) in *.
    set (successful1 := if b then dict_set m true successful else successful).
    assert (Hother : forall md, md ∈ plan -> md.1 <> m).
    { intros md Hin Heq. apply Hnotin. apply list_elem_of_fmap.
      exists md. split; [|done].
      apply (listed_functional (m, d) md); [done| |done].
      rewrite Forall_forall in Hlisted. by apply Hlisted. }
    assert (Hm_fresh : m ∉ dict_keys successful).
    { apply (Hfresh (m, d)). by left. }
    destruct (IH Hlisted Hnodup Hdirs successful1 w1) as (s' & w' & new & Hloop & Hkeys & Hfs & Htr & Hatt).
    { intros md Hin. subst successful1. destruct b.
      - rewrite dict_keys_set_fresh by done.
        rewrite not_elem_of_app. split.
        + apply Hfresh. by right.
        + rewrite list_elem_of_singleton. by apply Hother.
      - apply Hfresh. by right. }
    exists s', w', (new ++ new1).
    split; [|split; [|split; [|split]]].
    + cbn [fmap list_fmap fst download_each]. unfold lift, Datasets_item.
      unfold listed in Hm. cbn in Hm. rewrite Hm.
      rewrite (bind_val _ _ w w d) by done.
      rewrite (bind_val _ _ _ _ _ Hrun). exact Hloop.
    + rewrite Hkeys.
      rewrite (filter_ext_elem _ (fun md => fetch_succeeds L token (fs w) md.2 = true) plan).
      2:{ intros md Hin. unfold fetch_succeeds.
          rewrite Hfs1; [done|]. intros Heq. apply Hnotin.
          apply list_elem_of_fmap. by exists md. }
      rewrite filter_cons. cbn [snd]. fold b. subst successful1.
      destruct b.
      * rewrite decide_True by done. rewrite dict_keys_set_fresh by done.
        rewrite fmap_cons. cbn [fst]. by rewrite <- app_assoc.
      * rewrite decide_False by done. done.
    + intros p Hp. rewrite fmap_cons, not_elem_of_cons in Hp.
      destruct Hp as [Hp1 Hp2]. rewrite Hfs by done. by apply Hfs1.
    + rewrite Htr, Htr1. by rewrite app_assoc.
    + apply Forall_cons. split.
      * cbn [snd]. split.
        -- destruct Hatt1; [left|right]; apply elem_of_app; by right.
        -- intros Hfail. destruct (Herr1 Hfail) as [detail Hdetail].
           exists detail. apply elem_of_app. by right.
      * apply Forall_forall. intros md Hin.
        rewrite Forall_forall in Hatt. destruct (Hatt md Hin) as [Ha He].
        split.
        -- destruct Ha; [left|right]; apply elem_of_app; by left.
        -- intros Hfail. destruct He as [detail Hdetail].
           { rewrite <- Hfail. unfold fetch_succeeds.
             rewrite Hfs1; [done|]. intros Heq. apply Hnotin.
             apply list_elem_of_fmap. by exists md. }
           exists detail. apply elem_of_app. by left.
Qed.

(** C4.  For a plan whose names are in the catalog (with distinct local
    paths, in a models directory that can be made), once the legacy step
    has returned: [download_weight_datasets] returns normally whatever the
    remote store answers for each item; every plan item is attempted (its
    "exists" or "downloading" line is printed); every item whose fetch
    fails has its error line printed; and the names recorded as successful
    are exactly the plan items whose fetch succeeds, in plan order. *)
Theorem download_isolates_failures (models : dict Z)
    (plan : list (string * descriptor)) (w w1 : world) :
  dict_keys models = plan.*1 ->
  Forall (listed catalog) plan ->
  NoDup (local_path <$> plan) ->
  Forall (can_make_dir L) plan ->
  migrate_models_ckpt catalog L w = (Val tt, w1) ->
  exists (successful : dict bool) (w2 : world) (new : list event),
    download_weight_datasets catalog L (Some models) token w
    = (Val successful, w2) /\
    dict_keys successful
    = (filter (fun md => fetch_succeeds L token (fs w1) md.2 = true) plan).*1 /\
    trace w2 = new ++ trace w1 /\
    Forall (fun md =>
              (Print (MExists (file md.2)) ∈ new
               \/ Print (MDownloading (file md.2)) ∈ new) /\
              (fetch_succeeds L token (fs w1) md.2 = false ->
               exists detail, Print (MDownloadError (file md.2) detail) ∈ new))
           plan.
Proof.
  intros Hkeys Hlisted Hnodup Hdirs Hmig.
  destruct (download_each_spec plan Hlisted Hnodup Hdirs [] w1)
    as (successful & w2 & new & Hloop & Hsucc & _ & Htr & Hall).
  { intros md _. apply not_elem_of_nil. }
  exists successful, (log (Print (MInstalled (dict_keys successful))) w2),
    (Print (MInstalled (dict_keys successful)) :: new).
  split; [|split; [|split]].
  - unfold download_weight_datasets.
    rewrite (bind_val _ _ _ _ _ Hmig).
    rewrite (bind_val _ _ w1 w1 (dict_keys models)) by done.
    rewrite Hkeys, (bind_val _ _ _ _ _ Hloop).
    by rewrite (bind_val _ _ w2 (log (Print (MInstalled (dict_keys successful))) w2) tt).
  - exact Hsucc.
  - cbn. by rewrite Htr.
  - eapply Forall_impl; [exact Hall|]. cbn. intros md [Ha He]. split.
    + destruct Ha; [left|right]; by right.
    + intros Hfail. destruct (He Hfail) as [detail ?]. exists detail. by right.
Qed.

(** One fetch never removes a file, and asks the remote store for [f]
    only when [f] is not there. *)
Lemma conditional_download_keeps f repo model_name w :
  is_Some (fs w !! model_dest_of f) ->
  exists new : list event,
    let r := conditional_download L repo model_name token w in
    is_Some (fs r.2 !! model_dest_of f) /\
    trace r.2 = new ++ trace w /\
    Forall (fun e => is_hub_for f e = false) new /\
    (model_name = f -> r.1 = Val true /\ new = [Print (MExists f)]).
Proof.
  intros Hf.
  destruct (fs w !! model_dest_of model_name) as [c|] eqn:Hfs.
  - rewrite conditional_download_present by (rewrite Hfs; eauto).
    exists [Print (MExists model_name)]. cbn.
    split; [done|]. split; [done|]. split; [by repeat constructor|].
    by intros ->.
  - assert (Hne : model_name <> f).
    { intros ->. rewrite Hfs in Hf. by destruct Hf. }
    assert (Hnohub : is_hub_for f (HubDownload repo model_name token) = false).
    { cbn. by apply String.eqb_neq. }
    destruct (io_fault L (SysMakedirs (posixpath.dirname (model_dest_of model_name))))
      as [detail|] eqn:Hdir.
    + rewrite (conditional_download_makedirs_fault _ _ _ _ _ detail) by done.
      exists []. cbn. by repeat split.
    + rewrite conditional_download_absent by done.
      destruct (hub L repo model_name token) as [content|detail].
      * destruct (io_fault L (SysLink _)) as [detail|].
        -- eexists [_; _; _]. cbn. split; [done|]. split; [done|].
           split; [by repeat constructor|done].
        -- eexists [_; _]. cbn. split; [|split; [done|]].
           ++ destruct (decide (model_dest_of model_name = model_dest_of f)) as [->|?].
              ** rewrite lookup_insert_eq. eauto.
              ** by rewrite lookup_insert_ne.
           ++ split; [by repeat constructor|done].
      * eexists [_; _; _]. cbn. split; [done|]. split; [done|].
        split; [by repeat constructor|done].
Qed.

(** Over the whole loop: a file that is there stays, the remote store is
    never asked for it, and the plan item it belongs to is recorded as
    successful with the "exists" line. *)
Lemma download_each_keeps f (keys : list string) :
  forall (successful : dict bool) (w : world),
    is_Some (fs w !! model_dest_of f) ->
    exists new : list event,
      let r := download_each catalog L keys token successful w in
      is_Some (fs r.2 !! model_dest_of f) /\
      trace r.2 = new ++ trace w /\
      Forall (fun e => is_hub_for f e = false) new /\
      forall successful', r.1 = Val successful' ->
        (forall k, k ∈ dict_keys successful -> k ∈ dict_keys successful') /\
        (forall m d, m ∈ keys -> dict_get m catalog = Some d -> file d = f ->
                     m ∈ dict_keys successful' /\ Print (MExists f) ∈ new).
Proof.
  induction keys as [|k keys IH]; intros successful w Hf.
  - exists []. cbn. split; [done|]. split; [done|]. split; [done|].
    intros s' [= <-]. split; [done|]. by intros m d ?%elem_of_nil.
  - cbn [download_each]. unfold lift, Datasets_item.
    destruct (dict_get k catalog) as [d|] eqn:Hk.
    2:{ exists []. rewrite (bind_raise _ _ w w (KeyError k)) by done.
        cbn. by repeat split. }
    rewrite (bind_val _ _ w w d) by done.
    destruct (conditional_download_keeps f (repo_id d) (file d) w Hf)
      as (new1 & Hstep).
    destruct (conditional_download L (repo_id d) (file d) token w) as [[b|e] w1] eqn:Hrun;
      cbn [fst snd] in Hstep; destruct Hstep as (Hf1 & Htr1 & Hno1 & Hsame).
    2:{ exists new1. rewrite (bind_raise _ _ _ _ _ Hrun). cbn.
        by repeat split. }
    rewrite (bind_val _ _ _ _ _ Hrun).
    destruct (IH (if b then dict_set k true successful else successful) w1 Hf1)
      as (new & Hf' & Htr & Hno & Hres).
    exists (new ++ new1). split; [exact Hf'|]. split.
    { rewrite Htr, Htr1. by rewrite app_assoc. }
    split; [by apply Forall_app|].
    intros s' Hs'. destruct (Hres s' Hs') as [Hstay Hfound]. split.
    + intros k' Hk'. apply Hstay. destruct b; [|done].
      by apply dict_keys_set_elem.
    + intros m d' Hm Hd' Hfile. apply elem_of_cons in Hm as [->|Hm].
      * assert (d' = d) as -> by congruence.
        destruct (Hsame Hfile) as [[= ->] ->]. split.
        -- apply Hstay, dict_keys_set_self.
        -- apply elem_of_app. right. by apply list_elem_of_singleton.
      * destruct (Hfound m d' Hm Hd' Hfile). split; [done|].
        apply elem_of_app. by left.
Qed.

(** The loop runs to the end when the names are in the catalog and the
    directories can be made. *)
Lemma download_each_returns (plan : list (string * descriptor)) :
  Forall (listed catalog) plan ->
  Forall (can_make_dir L) plan ->
  forall (successful : dict bool) (w : world),
    exists successful' w',
      download_each catalog L plan.*1 token successful w = (Val successful', w').
Proof.
  induction plan as [|[m d] plan IH]; intros Hlisted Hdirs successful w.
  - by exists successful, w.
  - apply Forall_cons in Hlisted as [Hm Hlisted].
    apply Forall_cons in Hdirs as [Hd Hdirs].
    destruct (conditional_download_outcome d w Hd) as (w1 & new1 & Hrun & _).
    cbn [fmap list_fmap fst download_each]. unfold lift, Datasets_item.
    unfold listed in Hm. cbn in Hm. rewrite Hm.
    rewrite (bind_val _ _ w w d) by done.
    rewrite (bind_val _ _ _ _ _ Hrun). by apply IH.
Qed.


(** C8.  [download_weight_datasets] runs the legacy step first.  When the
    deprecated file is there and the operator consents, it is renamed to
    the file name of the catalog entry [stable-diffusion-1.4]; the fetch
    loop then runs from the renamed state, records that entry as
    successful with the "exists" line, and never asks the remote store for
    its file.  When consent is withheld, or the deprecated file is not
    there, the legacy step leaves the files as they are. *)
Theorem legacy_migration_precedes_fetch (d14 : descriptor) (w : world) :
  dict_get "stable-diffusion-1.4" catalog = Some d14 ->
  (forall content answer rest,
     fs w !! legacy_path = Some content ->
     stdin w = Line answer :: rest ->
     says_yes true answer = true ->
     io_fault L (SysRename legacy_path (model_dest_of (file d14))) = None ->
     exists w1 : world,
       migrate_models_ckpt catalog L w = (Val tt, w1) /\
       fs w1 = <[model_dest_of (file d14) := content]> (delete legacy_path (fs w)) /\
       forall (models : dict Z) (plan : list (string * descriptor)),
         dict_keys models = plan.*1 ->
         Forall (listed catalog) plan ->
         Forall (can_make_dir L) plan ->
         "stable-diffusion-1.4" ∈ dict_keys models ->
         exists (successful : dict bool) (w2 : world) (new : list event),
           download_weight_datasets catalog L (Some models) token w
           = (Val successful, w2) /\
           trace w2 = new ++ trace w1 /\
           "stable-diffusion-1.4" ∈ dict_keys successful /\
           Print (MExists (file d14)) ∈ new /\
           Forall (fun e => is_hub_for (file d14) e = false) new) /\
  (forall answer rest,
     is_Some (fs w !! legacy_path) ->
     stdin w = Line answer :: rest ->
     says_yes true answer = false ->
     exists w1 : world,
       migrate_models_ckpt catalog L w = (Val tt, w1) /\ fs w1 = fs w) /\
  (fs w !! legacy_path = None ->
   migrate_models_ckpt catalog L w = (Val tt, w)).
Proof.
  intros Hcat. split; [|split].
  - intros content answer rest Hin Hstdin Hyes Hio.
    eexists. split; [by eapply migrate_consented|]. split; [done|].
    intros models plan Hkeys Hlisted Hdirs Hsel.
    match goal with
    | |- context [trace ?x] => set (w1 := x)
    end.
    assert (Hf : is_Some (fs w1 !! model_dest_of (file d14))).
    { subst w1. cbn. rewrite lookup_insert_eq. eauto. }
    destruct (download_each_returns plan Hlisted Hdirs [] w1) as (successful & w2 & Hloop).
    destruct (download_each_keeps (file d14) plan.*1 [] w1 Hf)
      as (new & Hkeep). rewrite Hloop in Hkeep. cbn [fst snd] in Hkeep.
    destruct Hkeep as (_ & Htr & Hno & Hres).
    destruct (Hres successful eq_refl) as [_ Hfound].
    destruct (Hfound "stable-diffusion-1.4" d14) as [Hmem Hprint];
      [by rewrite <- Hkeys | done | done |].
    exists successful, (log (Print (MInstalled (dict_keys successful))) w2),
      (Print (MInstalled (dict_keys successful)) :: new).
    split; [|split; [|split; [|split]]].
    + unfold download_weight_datasets.
      erewrite bind_val; [|by eapply migrate_consented]. fold w1.
      rewrite (bind_val _ _ w1 w1 (dict_keys models)) by done.
      rewrite Hkeys, (bind_val _ _ _ _ _ Hloop).
      by rewrite (bind_val _ _ w2 (log (Print (MInstalled (dict_keys successful))) w2) tt).
    + cbn. by rewrite Htr.
    + exact Hmem.
    + by right.
    + by constructor.
  - intros answer rest Hin Hstdin Hno.
    eexists. split; [by eapply migrate_declined|done].
  - apply migrate_absent.
Qed.

End Download.

(** ** The fetch properties on the script's own catalog *)

Lemma fetch_already_present_witness :
  exists w1 w2 : world,
    let w := test_world [(model_dest_of "sd-v1-4.ckpt", "weights")] [] in
    conditional_download store_without_inpainting
      "CompVis/stable-diffusion-v-1-4-original" "sd-v1-4.ckpt" "hf_secret" w
    = (Val true, w1) /\
    conditional_download store_without_inpainting
      "CompVis/stable-diffusion-v-1-4-original" "sd-v1-4.ckpt" "hf_secret" w1
    = (Val true, w2) /\
    fs w1 = fs w /\ fs w2 = fs w /\
    stdin w2 = stdin w /\ hf_token w2 = hf_token w /\
    trace w1 = [Print (MExists "sd-v1-4.ckpt")] ++ trace w /\
    trace w2 = [Print (MExists "sd-v1-4.ckpt"); Print (MExists "sd-v1-4.ckpt")]
               ++ trace w.
Proof.
  apply (fetch_already_present store_without_inpainting).
  exists "weights". vm_compute. reflexivity.
Defined.

Lemma download_isolates_failures_witness :
  exists (successful : dict bool) (w2 : world),
    download_weight_datasets Datasets store_without_inpainting (Some models3)
      "hf_secret" (test_world [] [])
    = (Val successful, w2) /\
    dict_keys successful = ["stable-diffusion-1.5"; "stable-diffusion-1.4"].
Proof.
  destruct (download_isolates_failures Datasets store_without_inpainting
              "hf_secret" models3 plan3 (test_world [] []) (test_world [] []))
    as (successful & w2 & new & Hrun & Hkeys & _).
  - reflexivity.
  - repeat constructor.
  - apply (bool_decide_unpack _). vm_compute. exact I.
  - repeat constructor.
  - reflexivity.
  - exists successful, w2. split; [exact Hrun|].
    rewrite Hkeys. vm_compute. reflexivity.
Defined.

Lemma legacy_migration_precedes_fetch_witness :
  let w := test_world [(legacy_path, "old weights")] [Line EmptyString] in
  exists (w1 w2 : world) (successful : dict bool) (new : list event),
    migrate_models_ckpt Datasets store_without_inpainting w = (Val tt, w1) /\
    fs w1 !! model_dest_of "sd-v1-4.ckpt" = Some "old weights" /\
    fs w1 !! legacy_path = None /\
    download_weight_datasets Datasets store_without_inpainting (Some models3)
      "hf_secret" w
    = (Val successful, w2) /\
    trace w2 = new ++ trace w1 /\
    "stable-diffusion-1.4" ∈ dict_keys successful /\
    Print (MExists "sd-v1-4.ckpt") ∈ new /\
    Forall (fun e => is_hub_for "sd-v1-4.ckpt" e = false) new.
Proof.
  intros w.
  destruct (legacy_migration_precedes_fetch Datasets store_without_inpainting
              "hf_secret" sd14 w)
    as [Hconsent _]; [reflexivity|].
  destruct (Hconsent "old weights" EmptyString [])
    as (w1 & Hrun & Hfs & Hplan); try reflexivity.
  destruct (Hplan models3 plan3) as (successful & w2 & new & Hall).
  - reflexivity.
  - repeat constructor.
  - repeat constructor.
  - vm_compute. set_solver.
  - exists w1, w2, successful, new. split; [exact Hrun|].
    rewrite Hfs. split; [reflexivity|]. split; [reflexivity|]. exact Hall.
Defined.

(** ** Config synthesis *)

Ltac dict_fields :=
  repeat first
    [ rewrite dict_get_set_eq
    | rewrite dict_get_pop_eq
    | rewrite dict_get_set_ne by (solve [done | by apply not_eq_sym])
    | rewrite dict_get_pop_ne by (solve [done | by apply not_eq_sym]) ].

Lemma not_managed (k : string) :
  k ∉ managed ->
  k <> "description" /\ k <> "weights" /\ k <> "config" /\ k <> "width"
  /\ k <> "height" /\ k <> "default" /\ k <> "vae".
Proof. unfold managed. rewrite !not_elem_of_cons. tauto. Qed.

(** The assignments to one stanza leave every other field as it is. *)
Lemma write_stanza_unmanaged d vae default_selected stanza k :
  k ∉ managed ->
  dict_get k (write_stanza d vae default_selected stanza) = dict_get k stanza.
Proof.
  intros (? & ? & ? & ? & ? & ? & ?)%not_managed. unfold write_stanza.
  destruct default_selected, vae as [v|]; try destruct (posixpath.is_empty v);
    by dict_fields.
Qed.

Lemma write_stanza_description d vae default_selected stanza :
  dict_get "description" (write_stanza d vae default_selected stanza)
  = Some (YStr (description d)).
Proof.
  unfold write_stanza.
  destruct default_selected, vae as [v|]; try destruct (posixpath.is_empty v);
    by dict_fields.
Qed.

Lemma write_stanza_weights d vae default_selected stanza :
  dict_get "weights" (write_stanza d vae default_selected stanza)
  = Some (YStr (posixpath.join Model_dir (file d))).
Proof.
  unfold write_stanza.
  destruct default_selected, vae as [v|]; try destruct (posixpath.is_empty v);
    by dict_fields.
Qed.

Lemma write_stanza_config d vae default_selected stanza :
  dict_get "config" (write_stanza d vae default_selected stanza)
  = Some (YStr (posixpath.join SD_Configs (config d))).
Proof.
  unfold write_stanza.
  destruct default_selected, vae as [v|]; try destruct (posixpath.is_empty v);
    by dict_fields.
Qed.

Lemma write_stanza_width d vae default_selected stanza :
  dict_get "width" (write_stanza d vae default_selected stanza)
  = Some (YInt (width d)).
Proof.
  unfold write_stanza.
  destruct default_selected, vae as [v|]; try destruct (posixpath.is_empty v);
    by dict_fields.
Qed.

Lemma write_stanza_height d vae default_selected stanza :
  dict_get "height" (write_stanza d vae default_selected stanza)
  = Some (YInt (height d)).
Proof.
  unfold write_stanza.
  destruct default_selected, vae as [v|]; try destruct (posixpath.is_empty v);
    by dict_fields.
Qed.

(** The default mark goes to the stanza written while nothing is selected
    yet, and is taken from every other stanza written. *)
Lemma write_stanza_default d vae default_selected stanza :
  dict_get "default" (write_stanza d vae default_selected stanza)
  = if default_selected then None else Some (YBool true).
Proof.
  unfold write_stanza.
  destruct default_selected, vae as [v|]; try destruct (posixpath.is_empty v);
    by dict_fields.
Qed.

Lemma write_stanza_vae_set d v default_selected stanza :
  v <> EmptyString ->
  dict_get "vae" (write_stanza d (Some v) default_selected stanza)
  = Some (YStr (model_dest_of v)).
Proof.
  intros Hv. unfold write_stanza.
  destruct v as [|c v]; [done|]. cbn [posixpath.is_empty].
  destruct default_selected; by dict_fields.
Qed.

Lemma write_stanza_vae_kept d vae default_selected stanza :
  vae = None \/ vae = Some EmptyString ->
  dict_get "vae" (write_stanza d vae default_selected stanza)
  = dict_get "vae" stanza.
Proof.
  intros [-> | ->]; unfold write_stanza; cbn [posixpath.is_empty];
    destruct default_selected; by dict_fields.
Qed.

Lemma stanza_field_set_eq conf name fields k :
  stanza_field (dict_set name (YMap fields) conf) name k = dict_get k fields.
Proof. unfold stanza_field. by rewrite dict_get_set_eq. Qed.

Lemma stanza_field_set_ne conf name name' node k :
  name <> name' ->
  stanza_field (dict_set name node conf) name' k = stanza_field conf name' k.
Proof. intros Hne. unfold stanza_field. by rewrite dict_get_set_ne. Qed.

Section Synthesis.

Variable catalog : dict descriptor.

(** One step of the second loop, for a name that is not a decoder. *)
Lemma add_stanzas_step model rest vae default_selected conf d :
  dict_get model catalog = Some d ->
  is_vae d = false ->
  add_stanzas catalog (model :: rest) vae default_selected conf
  = match dict_get model conf with
    | Some (YMap st) =>
        add_stanzas catalog rest vae true
          (dict_set model (YMap (write_stanza d vae default_selected st)) conf)
    | None =>
        add_stanzas catalog rest vae true
          (dict_set model (YMap (write_stanza d vae default_selected [])) conf)
    | Some _ => Raise TypeError
    end.
Proof.
  intros Hd Hv. cbn [add_stanzas]. unfold Datasets_item. rewrite Hd.
  cbn. rewrite Hv. by destruct (dict_get model conf) as [[]|].
Qed.

Lemma add_stanzas_skip model rest vae default_selected conf d :
  dict_get model catalog = Some d ->
  is_vae d = true ->
  add_stanzas catalog (model :: rest) vae default_selected conf
  = add_stanzas catalog rest vae default_selected conf.
Proof.
  intros Hd Hv. cbn [add_stanzas]. unfold Datasets_item. rewrite Hd.
  cbn. by rewrite Hv.
Qed.

Lemma add_stanzas_unlisted model rest vae default_selected conf :
  dict_get model catalog = None ->
  add_stanzas catalog (model :: rest) vae default_selected conf
  = Raise (KeyError model).
Proof.
  intros Hd. cbn [add_stanzas]. unfold Datasets_item. by rewrite Hd.
Qed.

(** A field that the assignments to a stanza leave alone is left alone in
    every stanza of the file. *)
Lemma add_stanzas_field_kept vae k :
  (forall d ds st, dict_get k (write_stanza d vae ds st) = dict_get k st) ->
  forall models default_selected conf conf',
    add_stanzas catalog models vae default_selected conf = Val conf' ->
    forall name, stanza_field conf' name k = stanza_field conf name k.
Proof.
  intros Hkept. induction models as [|model rest IH];
    intros default_selected conf conf' Hrun name.
  - by injection Hrun as <-.
  - destruct (dict_get model catalog) as [d|] eqn:Hd.
    2:{ by rewrite add_stanzas_unlisted in Hrun. }
    destruct (is_vae d) eqn:Hv.
    { rewrite (add_stanzas_skip _ _ _ _ _ d) in Hrun by done. by eapply IH. }
    rewrite (add_stanzas_step _ _ _ _ _ d) in Hrun by done.
    destruct (dict_get model conf) as [node|] eqn:Hnode.
    + destruct node as [| | | | |st]; try done.
      rewrite (IH _ _ _ Hrun).
      destruct (decide (model = name)) as [->|Hne].
      * rewrite stanza_field_set_eq, Hkept. unfold stanza_field. by rewrite Hnode.
      * by rewrite stanza_field_set_ne.
    + rewrite (IH _ _ _ Hrun).
      destruct (decide (model = name)) as [->|Hne].
      * rewrite stanza_field_set_eq, Hkept. unfold stanza_field. by rewrite Hnode.
      * by rewrite stanza_field_set_ne.
Qed.

(** A field that the assignments to a stanza always set has that value in
    the stanza of every model of the list. *)
Lemma add_stanzas_field_set vae k (value : descriptor -> yaml) :
  (forall d ds st, dict_get k (write_stanza d vae ds st) = Some (value d)) ->
  forall models default_selected conf conf',
    add_stanzas catalog models vae default_selected conf = Val conf' ->
    forall model d,
      dict_get model catalog = Some d ->
      is_vae d = false ->
      model ∈ models \/ stanza_field conf model k = Some (value d) ->
      stanza_field conf' model k = Some (value d).
Proof.
  intros Hset. induction models as [|h rest IH];
    intros default_selected conf conf' Hrun model d Hd Hv Hin.
  - injection Hrun as <-. destruct Hin as [?%elem_of_nil|?]; done.
  - destruct (dict_get h catalog) as [dh|] eqn:Hdh.
    2:{ by rewrite add_stanzas_unlisted in Hrun. }
    destruct (is_vae dh) eqn:Hvh.
    { rewrite (add_stanzas_skip _ _ _ _ _ dh) in Hrun by done.
      eapply IH; [done..|]. destruct Hin as [Hin|?]; [|by right].
      apply elem_of_cons in Hin as [->|?]; [congruence|by left]. }
    rewrite (add_stanzas_step _ _ _ _ _ dh) in Hrun by done.
    assert (Hnext : forall st conf1,
      conf1 = dict_set h (YMap (write_stanza dh vae default_selected st)) conf ->
      model ∈ rest \/ stanza_field conf1 model k = Some (value d)).
    { intros st conf1 ->. destruct (decide (h = model)) as [->|Hne].
      - right. rewrite stanza_field_set_eq, Hset. congruence.
      - destruct Hin as [Hin|Hfield].
        + apply elem_of_cons in Hin as [->|?]; [done|by left].
        + right. by rewrite stanza_field_set_ne. }
    destruct (dict_get h conf) as [node|] eqn:Hnode.
    + destruct node as [| | | | |st]; try done.
      eapply IH; [done..|]. by eapply Hnext.
    + eapply IH; [done..|]. by eapply Hnext.
Qed.

(** An entry whose name is not a model of the list is not touched at all. *)
Lemma add_stanzas_other vae :
  forall models default_selected conf conf',
    add_stanzas catalog models vae default_selected conf = Val conf' ->
    forall name,
      (name ∈ models -> is_model catalog name = false) ->
      dict_get name conf' = dict_get name conf.
Proof.
  induction models as [|h rest IH];
    intros default_selected conf conf' Hrun name Hname.
  - by injection Hrun as <-.
  - destruct (dict_get h catalog) as [dh|] eqn:Hdh.
    2:{ by rewrite add_stanzas_unlisted in Hrun. }
    assert (Hrest : name ∈ rest -> is_model catalog name = false).
    { intros ?. apply Hname. by right. }
    destruct (is_vae dh) eqn:Hvh.
    { rewrite (add_stanzas_skip _ _ _ _ _ dh) in Hrun by done. by eapply IH. }
    assert (Hne : h <> name).
    { intros ->. unfold is_model in Hname. rewrite Hdh, Hvh in Hname.
      by discriminate Hname; left. }
    rewrite (add_stanzas_step _ _ _ _ _ dh) in Hrun by done.
    destruct (dict_get h conf) as [node|] eqn:Hnode.
    + destruct node as [| | | | |st]; try done.
      rewrite (IH _ _ _ Hrun name Hrest). by rewrite dict_get_set_ne.
    + rewrite (IH _ _ _ Hrun name Hrest). by rewrite dict_get_set_ne.
Qed.

Lemma mapping_or_absent_set conf h fields model :
  mapping_or_absent conf model ->
  mapping_or_absent (dict_set h (YMap fields) conf) model.
Proof.
  unfold mapping_or_absent. destruct (decide (h = model)) as [->|Hne].
  - by rewrite dict_get_set_eq.
  - by rewrite dict_get_set_ne.
Qed.

(** The second loop runs to the end when the names are in the catalog and
    the entries it finds are mappings. *)
Lemma add_stanzas_total vae :
  forall models default_selected conf,
    Forall (in_catalog catalog) models ->
    Forall (mapping_or_absent conf) models ->
    exists conf', add_stanzas catalog models vae default_selected conf = Val conf'.
Proof.
  induction models as [|h rest IH]; intros default_selected conf Hcat Hmap.
  - by exists conf.
  - apply Forall_cons in Hcat as [[dh Hdh] Hcat].
    apply Forall_cons in Hmap as [Hh Hmap].
    destruct (is_vae dh) eqn:Hvh.
    { rewrite (add_stanzas_skip _ _ _ _ _ dh) by done. by apply IH. }
    rewrite (add_stanzas_step _ _ _ _ _ dh) by done.
    unfold mapping_or_absent in Hh.
    destruct (dict_get h conf) as [node|] eqn:Hnode.
    + destruct node as [| | | | |st]; try done.
      apply IH; [done|]. eapply Forall_impl; [exact Hmap|].
      intros m. apply mapping_or_absent_set.
    + apply IH; [done|]. eapply Forall_impl; [exact Hmap|].
      intros m. apply mapping_or_absent_set.
Qed.

(** The first loop: the file of the last decoder of the list wins. *)
Lemma find_vae_last :
  forall models vae,
    Forall (in_catalog catalog) models ->
    find_vae catalog models vae
    = Val (match last (vae_files catalog models) with
           | Some v => Some v
           | None => vae
           end).
Proof.
  induction models as [|h rest IH]; intros vae Hcat; [done|].
  apply Forall_cons in Hcat as [[dh Hdh] Hcat].
  cbn [find_vae]. unfold Datasets_item. rewrite Hdh. cbn.
  rewrite IH by done. unfold vae_files. cbn [omap list_omap]. rewrite Hdh.
  destruct (is_vae dh).
  - rewrite last_cons. by destruct (last _).
  - done.
Qed.

(** The default mark after the second loop, for a list without repeats:
    it is on the first model of the list when nothing was selected before,
    and on no other model of the list. *)
Lemma add_stanzas_default vae :
  forall models default_selected conf conf',
    NoDup models ->
    add_stanzas catalog models vae default_selected conf = Val conf' ->
    forall model,
      model ∈ models ->
      is_model catalog model = true ->
      stanza_field conf' model "default"
      = if negb default_selected
           && bool_decide (first_model catalog models = Some model)
        then Some (YBool true) else None.
Proof.
  induction models as [|h rest IH];
    intros default_selected conf conf' Hnodup Hrun model Hin Hmodel.
  - by apply elem_of_nil in Hin.
  - apply NoDup_cons in Hnodup as [Hh Hnodup].
    destruct (dict_get h catalog) as [dh|] eqn:Hdh.
    2:{ by rewrite add_stanzas_unlisted in Hrun. }
    unfold first_model. rewrite filter_cons.
    destruct (is_vae dh) eqn:Hvh.
    { rewrite (add_stanzas_skip _ _ _ _ _ dh) in Hrun by done.
      rewrite decide_False by (unfold is_model; by rewrite Hdh, Hvh).
      apply elem_of_cons in Hin as [->|Hin].
      - unfold is_model in Hmodel. by rewrite Hdh, Hvh in Hmodel.
      - by eapply IH. }
    rewrite decide_True by (unfold is_model; by rewrite Hdh, Hvh).
    cbn [head].
    rewrite (add_stanzas_step _ _ _ _ _ dh) in Hrun by done.
    assert (Hstep : forall st,
      add_stanzas catalog rest vae true
        (dict_set h (YMap (write_stanza dh vae default_selected st)) conf)
      = Val conf' ->
      stanza_field conf' model "default"
      = if negb default_selected && bool_decide (Some h = Some model)
        then Some (YBool true) else None).
    { intros st Hrest. apply elem_of_cons in Hin as [->|Hin].
      - unfold stanza_field.
        rewrite (add_stanzas_other _ _ _ _ _ Hrest h) by done.
        rewrite dict_get_set_eq, write_stanza_default.
        rewrite bool_decide_eq_true_2 by done. by destruct default_selected.
      - rewrite (IH _ _ _ Hnodup Hrest model Hin Hmodel). cbn [negb andb].
        rewrite bool_decide_eq_false_2; [by rewrite andb_false_r|].
        intros [= ->]. done. }
    destruct (dict_get h conf) as [node|] eqn:Hnode.
    + destruct node as [| | | | |st]; try done. by eapply Hstep.
    + by eapply Hstep.
Qed.

Lemma first_model_elem models m :
  first_model catalog models = Some m ->
  m ∈ models /\ is_model catalog m = true.
Proof.
  unfold first_model. intros Hhead.
  assert (Hin : m ∈ filter (fun model => is_model catalog model = true) models).
  { destruct (filter _ models) as [|x l]; [done|].
    cbn in Hhead. injection Hhead as ->. by left. }
  apply list_elem_of_filter in Hin. tauto.
Qed.

Lemma synthesize_run conf models :
  Forall (in_catalog catalog) models ->
  synthesize catalog conf models
  = add_stanzas catalog models (last (vae_files catalog models)) false conf.
Proof.
  intros Hcat. unfold synthesize. rewrite find_vae_last by done.
  cbn. by destruct (last _).
Qed.

(** Where the synthesis keeps a single default: when no stanza outside the
    models of the list is marked. *)
Lemma one_default_when_none_outside conf models m :
  NoDup models ->
  Forall (in_catalog catalog) models ->
  Forall (mapping_or_absent conf) models ->
  first_model catalog models = Some m ->
  (forall name, ~ (name ∈ models /\ is_model catalog name = true) ->
                stanza_field conf name "default" <> Some (YBool true)) ->
  exists conf',
    synthesize catalog conf models = Val conf' /\
    forall name,
      stanza_field conf' name "default" = Some (YBool true) <-> name = m.
Proof.
  intros Hnodup Hcat Hmap Hfirst Hout.
  rewrite synthesize_run by done.
  destruct (add_stanzas_total (last (vae_files catalog models)) models false conf Hcat Hmap)
    as [conf' Hrun].
  exists conf'. split; [done|]. intros name.
  destruct (first_model_elem _ _ Hfirst) as [Hm_in Hm_model].
  destruct (decide (name ∈ models /\ is_model catalog name = true)) as [[Hin Hmod]|Hno].
  - rewrite (add_stanzas_default _ _ _ _ _ Hnodup Hrun name Hin Hmod).
    cbn [negb andb]. rewrite Hfirst. case_bool_decide as Heq.
    + injection Heq as ->. done.
    + split; [done|]. intros ->. done.
  - assert (Hsame : dict_get name conf' = dict_get name conf).
    { eapply add_stanzas_other; [done|]. intros Hin.
      destruct (is_model catalog name) eqn:E; [|done]. exfalso. by apply Hno. }
    unfold stanza_field in *. rewrite Hsame. split.
    + intros Hdef. exfalso. by apply (Hout name).
    + intros ->. exfalso. by apply Hno.
Qed.

(** C6.  When synthesis runs over names of the catalog and finds mappings,
    it returns a new mapping in which every field outside the managed ones
    has, in every stanza, the value it had before (so an operator-added
    field of a rewritten stanza is kept, and none is added); a name that is
    not a model of the list keeps its whole entry; and the stanza of each
    model of the list carries the catalog's description, weights path,
    config path, width and height. *)
Theorem merge_preserves_unmanaged (conf : conf_t) (models : list string) :
  Forall (in_catalog catalog) models ->
  Forall (mapping_or_absent conf) models ->
  exists conf',
    synthesize catalog conf models = Val conf' /\
    (forall name field,
       field ∉ managed ->
       stanza_field conf' name field = stanza_field conf name field) /\
    (forall name,
       (name ∈ models -> is_model catalog name = false) ->
       dict_get name conf' = dict_get name conf) /\
    (forall model d,
       model ∈ models ->
       dict_get model catalog = Some d ->
       is_vae d = false ->
       stanza_field conf' model "description" = Some (YStr (description d)) /\
       stanza_field conf' model "weights" = Some (YStr (model_dest_of (file d))) /\
       stanza_field conf' model "config"
       = Some (YStr (posixpath.join SD_Configs (config d))) /\
       stanza_field conf' model "width" = Some (YInt (width d)) /\
       stanza_field conf' model "height" = Some (YInt (height d))).
Proof.
  intros Hcat Hmap. rewrite synthesize_run by done.
  set (vae := last (vae_files catalog models)).
  destruct (add_stanzas_total vae models false conf Hcat Hmap) as [conf' Hrun].
  exists conf'. split; [done|]. split; [|split].
  - intros name field Hfield.
    eapply add_stanzas_field_kept; [|done].
    intros. by apply write_stanza_unmanaged.
  - intros name Hname. by eapply add_stanzas_other.
  - intros model d Hin Hd Hv. repeat split.
    + eapply (add_stanzas_field_set vae "description" (fun d => YStr (description d)));
        [intros; apply write_stanza_description|done..|by left].
    + eapply (add_stanzas_field_set vae "weights" (fun d => YStr (model_dest_of (file d))));
        [intros; apply write_stanza_weights|done..|by left].
    + eapply (add_stanzas_field_set vae "config"
                (fun d => YStr (posixpath.join SD_Configs (config d))));
        [intros; apply write_stanza_config|done..|by left].
    + eapply (add_stanzas_field_set vae "width" (fun d => YInt (width d)));
        [intros; apply write_stanza_width|done..|by left].
    + eapply (add_stanzas_field_set vae "height" (fun d => YInt (height d)));
        [intros; apply write_stanza_height|done..|by left].
Qed.

(** C7.  When synthesis runs over names of the catalog and finds mappings:
    the decoder file its first loop ends with is the file of the last
    auxiliary decoder of the list; when there is one (with a file name),
    the stanza of every model of the list gets [vae] set to that file's
    path under the models directory; when the list has no auxiliary
    decoder, the [vae] field of every stanza is what it was before, absent
    included. *)
Theorem vae_path_propagation (conf : conf_t) (models : list string) :
  Forall (in_catalog catalog) models ->
  Forall (mapping_or_absent conf) models ->
  exists conf',
    synthesize catalog conf models = Val conf' /\
    find_vae catalog models None = Val (last (vae_files catalog models)) /\
    (forall v,
       last (vae_files catalog models) = Some v ->
       v <> EmptyString ->
       forall model d,
         model ∈ models ->
         dict_get model catalog = Some d ->
         is_vae d = false ->
         stanza_field conf' model "vae" = Some (YStr (model_dest_of v))) /\
    (vae_files catalog models = [] ->
     forall name, stanza_field conf' name "vae" = stanza_field conf name "vae").
Proof.
  intros Hcat Hmap. rewrite synthesize_run by done.
  destruct (add_stanzas_total (last (vae_files catalog models)) models false conf Hcat Hmap)
    as [conf' Hrun].
  exists conf'. split; [done|]. split; [|split].
  - rewrite find_vae_last by done. by destruct (last _).
  - intros v Hlast Hv model d Hin Hd Hnv. rewrite Hlast in Hrun.
    eapply (add_stanzas_field_set (Some v) "vae" (fun _ => YStr (model_dest_of v)));
      [|done..|by left].
    intros. by apply write_stanza_vae_set.
  - intros Hnone name. rewrite Hnone in Hrun. cbn in Hrun.
    eapply add_stanzas_field_kept; [|done].
    intros. apply write_stanza_vae_kept. by left.
Qed.

End Synthesis.

(** ** Persisting the new config *)

Section Persist.

Variable catalog : dict descriptor.
Variable L : library.

Lemma find_vae_exn models : forall vae e,
  find_vae catalog models vae = Raise e -> is_Exception e = true.
Proof.
  induction models as [|h rest IH]; intros vae e; [done|].
  cbn [find_vae]. unfold Datasets_item.
  destruct (dict_get h catalog) as [d|]; cbn.
  - apply IH.
  - by intros [= <-].
Qed.

Lemma add_stanzas_exn vae models : forall default_selected conf e,
  add_stanzas catalog models vae default_selected conf = Raise e ->
  is_Exception e = true.
Proof.
  induction models as [|h rest IH]; intros default_selected conf e; [done|].
  destruct (dict_get h catalog) as [d|] eqn:Hd.
  2:{ rewrite add_stanzas_unlisted by done. by intros [= <-]. }
  destruct (is_vae d) eqn:Hv.
  { rewrite (add_stanzas_skip _ _ _ _ _ _ d) by done. apply IH. }
  rewrite (add_stanzas_step _ _ _ _ _ _ d) by done.
  destruct (dict_get h conf) as [[| | | | |st]|]; try (by intros [= <-]); apply IH.
Qed.

Lemma synthesize_exn conf models e :
  synthesize catalog conf models = Raise e -> is_Exception e = true.
Proof.
  unfold synthesize.
  destruct (find_vae catalog models None) as [vae|e'] eqn:Hvae; cbn.
  - apply add_stanzas_exn.
  - intros [= <-]. by eapply find_vae_exn.
Qed.

(** Synthesis only reads. *)
Lemma new_config_file_contents_state successfully_downloaded w :
  (new_config_file_contents catalog L successfully_downloaded w).2 = w.
Proof.
  unfold new_config_file_contents, OmegaConf_load, read_fs, lift, raise,
    mbind, M_bind, mret, M_ret. cbv beta iota.
  destruct (fs w !! _); [|done].
  destruct (yaml_parse L _); [|done].
  destruct (synthesize _ _ _); [|done].
  by destruct (to_yaml L _).
Qed.

Lemma new_config_file_contents_exn successfully_downloaded w e :
  (new_config_file_contents catalog L successfully_downloaded w).1 = Raise e ->
  is_Exception e = true.
Proof.
  unfold new_config_file_contents, OmegaConf_load, read_fs, lift, raise,
    mbind, M_bind, mret, M_ret. cbv beta iota.
  destruct (fs w !! _); [|by intros [= <-]].
  destruct (yaml_parse L _); [|by intros [= <-]].
  destruct (synthesize _ _ _) eqn:Hs; cbn.
  - destruct (to_yaml L _); [done|by intros [= <-]].
  - intros [= <-]. by eapply synthesize_exn.
Qed.

(** With no config file the load fails. *)
Lemma new_config_file_contents_absent successfully_downloaded w :
  fs w !! Config_file = None ->
  new_config_file_contents catalog L successfully_downloaded w
  = (Raise (FileNotFoundError Config_file), w).
Proof.
  intros Habs.
  unfold new_config_file_contents, OmegaConf_load, read_fs, lift, raise,
    mbind, M_bind, mret, M_ret. cbv beta iota. by rewrite Habs.
Qed.

(** With a config file that parses, the text is the serialized synthesis. *)
Lemma new_config_file_contents_present successfully_downloaded w text conf :
  fs w !! Config_file = Some text ->
  yaml_parse L text = Some conf ->
  new_config_file_contents catalog L successfully_downloaded w
  = (match synthesize catalog conf (dict_keys successfully_downloaded) with
     | Val conf' =>
         match to_yaml L conf' with
         | Some out => Val out
         | None => Raise YAMLError
         end
     | Raise e => Raise e
     end, w).
Proof.
  intros Hfile Hparse.
  unfold new_config_file_contents, OmegaConf_load, read_fs, lift, raise,
    mbind, M_bind, mret, M_ret. cbv beta iota. rewrite Hfile, Hparse.
  destruct (synthesize _ _ _); [|done]. by destruct (to_yaml L _).
Qed.

(** [update_config_file], step by step. *)
Lemma update_config_file_run successfully_downloaded w :
  update_config_file catalog L successfully_downloaded w =
  match (new_config_file_contents catalog L successfully_downloaded w).1 with
  | Raise e => reported (exn_str e) w
  | Val text =>
      match io_fault L (SysOpenW tmpfile) with
      | Some detail => reported detail w
      | None =>
          let w1 := set_fs (<[tmpfile := EmptyString]> (fs w)) w in
          match io_fault L (SysWrite tmpfile Config_preamble) with
          | Some detail => reported detail w1
          | None =>
              let w2 := set_fs (<[tmpfile := Config_preamble]> (fs w1)) w1 in
              match io_fault L (SysWrite tmpfile text) with
              | Some detail => reported detail w2
              | None =>
                  let w3 := set_fs (<[tmpfile := Config_preamble +:+ text]> (fs w2)) w2 in
                  match io_fault L (SysRename tmpfile Config_file) with
                  | Some detail => reported detail w3
                  | None =>
                      (Val tt,
                       log (Print (MConfigCreated Config_file))
                         (set_fs (<[Config_file := Config_preamble +:+ text]>
                                    (delete tmpfile (fs w3))) w3))
                  end
              end
          end
      end
  end.
Proof.
  pose proof (new_config_file_contents_state successfully_downloaded w) as Hst.
  pose proof (new_config_file_contents_exn successfully_downloaded w) as Hexn.
  unfold update_config_file.
  match goal with
  | |- context [try_except ?b ?h] => set (body := b); set (handler := h)
  end.
  assert (Hcaught : forall e w', is_Exception e = true -> body w = (Raise e, w') ->
    (try_except body handler ≫=
       (fun ok : bool => if ok then print (MConfigCreated Config_file) else mret tt)) w
    = reported (exn_str e) w').
  { intros e w' He Hbody.
    rewrite (bind_val _ _ w (log (Print (MConfigError Config_file (exn_str e))) w') false);
      [done|].
    by rewrite (try_except_caught _ _ _ _ _ Hbody He). }
  destruct (new_config_file_contents catalog L successfully_downloaded w)
    as [[text|e] w0] eqn:Hn; cbn [fst snd] in *; subst w0.
  2:{ apply Hcaught; [by apply Hexn|]. subst body.
      by rewrite (bind_raise _ _ _ _ _ Hn). }
  destruct (io_fault L (SysOpenW tmpfile)) as [detail|] eqn:H1.
  { apply (Hcaught (OSError detail)); [done|]. subst body.
    rewrite (bind_val _ _ _ _ _ Hn).
    by rewrite (bind_raise _ _ _ _ _ (open_w_fault L _ _ w H1)). }
  cbv zeta.
  set (w1 := set_fs (<[tmpfile := EmptyString]> (fs w)) w).
  destruct (io_fault L (SysWrite tmpfile Config_preamble)) as [detail|] eqn:H2.
  { apply (Hcaught (OSError detail)); [done|]. subst body.
    rewrite (bind_val _ _ _ _ _ Hn).
    rewrite (bind_val _ _ _ _ _ (open_w_run L _ w H1)).
    by rewrite (bind_raise _ _ _ _ _ (file_write_fault L _ _ _ _ H2)). }
  assert (Hw1 : file_write L tmpfile Config_preamble w1
                = (Val tt, set_fs (<[tmpfile := Config_preamble]> (fs w1)) w1)).
  { rewrite (file_write_run L _ _ EmptyString) by (done || apply lookup_insert_eq).
    done. }
  set (w2 := set_fs (<[tmpfile := Config_preamble]> (fs w1)) w1) in *.
  destruct (io_fault L (SysWrite tmpfile text)) as [detail|] eqn:H3.
  { apply (Hcaught (OSError detail)); [done|]. subst body.
    rewrite (bind_val _ _ _ _ _ Hn).
    rewrite (bind_val _ _ _ _ _ (open_w_run L _ w H1)).
    rewrite (bind_val _ _ _ _ _ Hw1).
    by rewrite (bind_raise _ _ _ _ _ (file_write_fault L _ _ _ _ H3)). }
  assert (Hw2 : file_write L tmpfile text w2
                = (Val tt, set_fs (<[tmpfile := Config_preamble +:+ text]> (fs w2)) w2)).
  { by rewrite (file_write_run L _ _ Config_preamble) by (done || apply lookup_insert_eq). }
  set (w3 := set_fs (<[tmpfile := Config_preamble +:+ text]> (fs w2)) w2) in *.
  destruct (io_fault L (SysRename tmpfile Config_file)) as [detail|] eqn:H4.
  { apply (Hcaught (OSError detail)); [done|]. subst body.
    rewrite (bind_val _ _ _ _ _ Hn).
    rewrite (bind_val _ _ _ _ _ (open_w_run L _ w H1)).
    rewrite (bind_val _ _ _ _ _ Hw1), (bind_val _ _ _ _ _ Hw2).
    by rewrite (bind_raise _ _ _ _ _ (os_rename_fault L _ _ _ _ H4)). }
  assert (Hw3 : os_rename L tmpfile Config_file w3
                = (Val tt, set_fs (<[Config_file := Config_preamble +:+ text]>
                                     (delete tmpfile (fs w3))) w3)).
  { by rewrite (os_rename_run L _ _ (Config_preamble +:+ text))
      by (done || apply lookup_insert_eq). }
  assert (Hbody : body w
                  = (Val true, set_fs (<[Config_file := Config_preamble +:+ text]>
                                         (delete tmpfile (fs w3))) w3)).
  { subst body.
    rewrite (bind_val _ _ _ _ _ Hn).
    rewrite (bind_val _ _ _ _ _ (open_w_run L _ w H1)).
    rewrite (bind_val _ _ _ _ _ Hw1), (bind_val _ _ _ _ _ Hw2).
    by rewrite (bind_val _ _ _ _ _ Hw3). }
  by rewrite (bind_val _ _ _ _ _ (try_except_val _ handler _ _ _ Hbody)).
Qed.

Lemma tmpfile_ne : tmpfile <> Config_file.
Proof. done. Qed.

(** C1.  [update_config_file] always returns normally.  Either every step
    succeeds, the rename included, and the config file then holds the
    preamble followed by the serialized synthesis; or some step fails (the
    load, the synthesis, the serialization, opening or writing the temporary
    file, or the rename itself), the error is reported, and the config file
    holds exactly what it held before.  No file other than the config file
    and the temporary file is touched. *)
Theorem config_write_is_atomic (successfully_downloaded : dict bool) (w : world) :
  exists w' : world,
    update_config_file catalog L successfully_downloaded w = (Val tt, w') /\
    (forall p, p <> tmpfile -> p <> Config_file -> fs w' !! p = fs w !! p) /\
    ((exists text,
        all_steps_succeed catalog L successfully_downloaded w text /\
        fs w' !! Config_file = Some (Config_preamble +:+ text) /\
        trace w' = Print (MConfigCreated Config_file) :: trace w)
     \/
     ((forall text, ~ all_steps_succeed catalog L successfully_downloaded w text) /\
      fs w' !! Config_file = fs w !! Config_file /\
      exists detail, trace w' = Print (MConfigError Config_file detail) :: trace w)).
Proof.
  pose proof tmpfile_ne as Hne.
  pose proof (new_config_file_contents_state successfully_downloaded w) as Hst.
  rewrite update_config_file_run. unfold reported.
  destruct (new_config_file_contents catalog L successfully_downloaded w)
    as [[text|e] w0] eqn:Hn; cbn [fst snd] in *; subst w0.
  2:{ eexists. split; [done|]. split; [done|]. right.
      split; [|split; [done|by eexists]].
      intros text (Hrun & _). by rewrite Hrun in Hn. }
  assert (Htext : forall text', all_steps_succeed catalog L successfully_downloaded w text' ->
                                text' = text).
  { intros text' (Hrun & _). rewrite Hrun in Hn. by injection Hn. }
  destruct (io_fault L (SysOpenW tmpfile)) as [detail|] eqn:H1.
  { eexists. split; [done|]. split; [done|]. right.
    split; [|split; [done|by eexists]].
    intros text' (_ & Hopen & _). congruence. }
  destruct (io_fault L (SysWrite tmpfile Config_preamble)) as [detail|] eqn:H2.
  { eexists. split; [done|]. cbn [fs set_fs log trace].
    split; [by intros; rewrite lookup_insert_ne|]. right.
    split; [|split; [by rewrite lookup_insert_ne|by eexists]].
    intros text' (_ & _ & Hwrite & _). congruence. }
  destruct (io_fault L (SysWrite tmpfile text)) as [detail|] eqn:H3.
  { eexists. split; [done|]. cbn [fs set_fs log trace].
    split; [by intros; rewrite !lookup_insert_ne|]. right.
    split; [|split; [by rewrite !lookup_insert_ne|by eexists]].
    intros text' Hall. pose proof (Htext _ Hall) as ->.
    destruct Hall as (_ & _ & _ & Hwrite & _). congruence. }
  destruct (io_fault L (SysRename tmpfile Config_file)) as [detail|] eqn:H4.
  { eexists. split; [done|]. cbn [fs set_fs log trace].
    split; [by intros; rewrite !lookup_insert_ne|]. right.
    split; [|split; [by rewrite !lookup_insert_ne|by eexists]].
    intros text' (_ & _ & _ & _ & Hren). congruence. }
  eexists. split; [done|]. cbn [fs set_fs log trace]. split.
  - intros p Hp1 Hp2.
    rewrite lookup_insert_ne, lookup_delete_ne by done.
    by rewrite !lookup_insert_ne.
  - left. exists text. split; [by repeat split|].
    split; [apply lookup_insert_eq|done].
Qed.

(** C5 (as the code has it).  When the config file is there,
    [OmegaConf_load] answers with what the parser makes of its text.  When
    there is no config file, [update_config_file] reports the error of the
    load and changes nothing else: no config file and no temporary file is
    written, whatever the success set. *)
Theorem config_load_needs_file (successfully_downloaded : dict bool) (w : world) :
  (forall text,
     fs w !! Config_file = Some text ->
     OmegaConf_load L Config_file w
     = (match yaml_parse L text with
        | Some conf => Val conf
        | None => Raise YAMLError
        end, w)) /\
  (fs w !! Config_file = None ->
   update_config_file catalog L successfully_downloaded w
   = (Val tt, log (Print (MConfigError Config_file Config_file)) w)).
Proof.
  split.
  - intros text Hfile.
    unfold OmegaConf_load, read_fs, raise, mbind, M_bind, mret, M_ret.
    cbv beta iota. rewrite Hfile. by destruct (yaml_parse L text).
  - intros Habs. rewrite update_config_file_run.
    by rewrite new_config_file_contents_absent.
Qed.

(** C10.  With an empty success set, a config file that parses and a
    working disk, the synthesis of the loaded mapping is that very mapping,
    and [update_config_file] replaces the config file by the preamble
    followed by the serialization of it; the temporary file is gone and
    every other file is as before. *)
Theorem empty_success_set_keeps_mapping (w : world) (text : string)
    (conf : conf_t) (out : string) :
  fs w !! Config_file = Some text ->
  yaml_parse L text = Some conf ->
  to_yaml L conf = Some out ->
  io_fault L (SysOpenW tmpfile) = None ->
  io_fault L (SysWrite tmpfile Config_preamble) = None ->
  io_fault L (SysWrite tmpfile out) = None ->
  io_fault L (SysRename tmpfile Config_file) = None ->
  synthesize catalog conf (dict_keys ([] : dict bool)) = Val conf /\
  exists w' : world,
    update_config_file catalog L [] w = (Val tt, w') /\
    fs w' !! Config_file = Some (Config_preamble +:+ out) /\
    fs w' !! tmpfile = None /\
    (forall p, p <> tmpfile -> p <> Config_file -> fs w' !! p = fs w !! p) /\
    trace w' = Print (MConfigCreated Config_file) :: trace w.
Proof.
  intros Hfile Hparse Hser H1 H2 H3 H4. split; [done|].
  pose proof tmpfile_ne as Hne.
  rewrite update_config_file_run.
  rewrite (new_config_file_contents_present _ _ _ _ Hfile Hparse).
  cbn [dict_keys fmap list_fmap synthesize find_vae add_stanzas mbind outcome_bind fst].
  rewrite Hser, H1, H2, H3, H4.
  eexists. split; [done|]. cbn [fs set_fs log trace].
  split; [apply lookup_insert_eq|]. split.
  { rewrite lookup_insert_ne by done. apply lookup_delete_eq. }
  split; [|done].
  intros p Hp1 Hp2.
  rewrite lookup_insert_ne, lookup_delete_ne by done.
  by rewrite !lookup_insert_ne.
Qed.

End Persist.

(** ** The selection dialogue *)

Lemma quiet_refl w : quiet w w.
Proof.
  repeat split; [by exists [] | by exists []].
Qed.

Lemma quiet_trans w1 w2 w3 : quiet w1 w2 -> quiet w2 w3 -> quiet w1 w3.
Proof.
  intros (Hf1 & Ht1 & (n1 & Hn1 & Hh1) & (u1 & Hu1))
         (Hf2 & Ht2 & (n2 & Hn2 & Hh2) & (u2 & Hu2)).
  split; [congruence|]. split; [congruence|]. split.
  - exists (n2 ++ n1). split; [|by apply Forall_app].
    rewrite Hn2, Hn1. by rewrite app_assoc.
  - exists (u1 ++ u2). rewrite Hu1, Hu2. by rewrite app_assoc.
Qed.

Lemma quiet_length w w' :
  quiet w w' -> (length (stdin w') <= length (stdin w))%nat.
Proof.
  intros (_ & _ & _ & (used & ->)). rewrite length_app. lia.
Qed.

Lemma interactive_ret {A : Type} (a : A) : interactive (mret a : M A).
Proof. intros w. apply quiet_refl. Qed.

Lemma interactive_raise {A : Type} (e : exn) : interactive (raise e : M A).
Proof. intros w. apply quiet_refl. Qed.

Lemma interactive_lift {A : Type} (o : outcome A) : interactive (lift o).
Proof. intros w. apply quiet_refl. Qed.

Lemma interactive_bind {A B : Type} (m : M A) (f : A -> M B) :
  interactive m -> (forall a, interactive (f a)) -> interactive (m ≫= f).
Proof.
  intros Hm Hf w. rewrite bind_run. specialize (Hm w).
  destruct (m w) as [[a|e] w1]; cbn [snd] in *; [|done].
  eapply quiet_trans; [exact Hm|]. apply Hf.
Qed.

Lemma interactive_print (m : msg) : interactive (print m).
Proof.
  intros w. cbn. repeat split; [|by exists []].
  exists [Print m]. split; [done|]. by repeat constructor.
Qed.

Lemma interactive_input (prompt : string) : interactive (input prompt).
Proof.
  intros w. unfold input.
  assert (Hlog : exists new, Prompt prompt :: trace w = new ++ trace w
                             /\ Forall (fun e => is_hub e = false) new).
  { exists [Prompt prompt]. split; [done|]. by repeat constructor. }
  destruct (stdin w) as [|[s|] rest] eqn:Hin; cbn; rewrite ?Hin;
    repeat split; try done; first [by exists [] | by eexists [_]].
Qed.

Lemma interactive_yes_or_no prompt default_yes :
  interactive (yes_or_no prompt default_yes).
Proof.
  unfold yes_or_no. apply interactive_bind; [apply interactive_input|].
  intros r. destruct (if posixpath.is_empty r then _ else r).
  - apply interactive_raise.
  - destruct default_yes; apply interactive_ret.
Qed.

Lemma reads_one_yes_or_no prompt default_yes :
  reads_one (yes_or_no prompt default_yes).
Proof.
  intros w a w' Hrun.
  destruct (stdin w) as [|[s|] rest] eqn:Hin.
  - by rewrite yes_or_no_eof in Hrun.
  - rewrite (yes_or_no_line _ _ s rest) in Hrun by done.
    injection Hrun as _ <-. cbn. lia.
  - by rewrite (yes_or_no_interrupt _ _ rest) in Hrun.
Qed.

Lemma reads_one_bind_l {A B : Type} (m : M A) (f : A -> M B) :
  reads_one m -> (forall a, interactive (f a)) -> reads_one (m ≫= f).
Proof.
  intros Hm Hf w b w' Hrun. rewrite bind_run in Hrun.
  destruct (m w) as [[a|e] w1] eqn:Hmw; [|done].
  pose proof (Hm _ _ _ Hmw). pose proof (quiet_length _ _ (Hf a w1)) as Hle.
  rewrite Hrun in Hle. cbn in Hle. lia.
Qed.

Lemma reads_one_bind_r {A B : Type} (m : M A) (f : A -> M B) :
  interactive m -> (forall a, reads_one (f a)) -> reads_one (m ≫= f).
Proof.
  intros Hm Hf w b w' Hrun. rewrite bind_run in Hrun.
  pose proof (quiet_length _ _ (Hm w)) as Hle.
  destruct (m w) as [[a|e] w1] eqn:Hmw; [|done].
  pose proof (Hf _ _ _ _ Hrun). cbn in Hle. lia.
Qed.

Section Selection.

Variable catalog : dict descriptor.

Lemma interactive_ask_datasets keys : forall counter datasets,
  interactive (ask_datasets catalog keys counter datasets).
Proof.
  induction keys as [|ds rest IH]; intros counter datasets; cbn [ask_datasets].
  - apply interactive_ret.
  - apply interactive_bind; [apply interactive_lift|]. intros d.
    apply interactive_bind; [apply interactive_print|]. intros _.
    apply interactive_bind; [apply interactive_yes_or_no|]. intros b.
    apply IH.
Qed.

Lemma interactive_show_selection datasets : forall dflt,
  interactive (show_selection datasets dflt).
Proof.
  induction datasets as [|[ds counter] rest IH]; intros dflt; cbn [show_selection].
  - apply interactive_ret.
  - apply interactive_bind; [apply interactive_print|]. intros _. apply IH.
Qed.

Lemma interactive_select_round : interactive (select_round catalog).
Proof.
  unfold select_round.
  apply interactive_bind; [apply interactive_print|]. intros _.
  apply interactive_bind; [apply interactive_ask_datasets|]. intros datasets.
  apply interactive_bind; [apply interactive_print|]. intros _.
  apply interactive_bind; [apply interactive_show_selection|]. intros _.
  apply interactive_bind; [apply interactive_print|]. intros _.
  apply interactive_bind; [apply interactive_yes_or_no|]. intros ok.
  destruct ok; cbn [negb]; [apply interactive_ret|].
  apply interactive_bind; [apply interactive_yes_or_no|]. intros change.
  destruct change; apply interactive_ret.
Qed.

Lemma reads_one_select_round : reads_one (select_round catalog).
Proof.
  unfold select_round.
  apply reads_one_bind_r; [apply interactive_print|]. intros _.
  apply reads_one_bind_r; [apply interactive_ask_datasets|]. intros datasets.
  apply reads_one_bind_r; [apply interactive_print|]. intros _.
  apply reads_one_bind_r; [apply interactive_show_selection|]. intros _.
  apply reads_one_bind_r; [apply interactive_print|]. intros _.
  apply reads_one_bind_l; [apply reads_one_yes_or_no|]. intros ok.
  destruct ok; cbn [negb]; [apply interactive_ret|].
  apply interactive_bind; [apply interactive_yes_or_no|]. intros change.
  destruct change; apply interactive_ret.
Qed.

(** The fuel [select_datasets] gives its loop is enough: the loop always
    ends with a result. *)
Lemma select_datasets_loop_enough : forall fuel w,
  (length (stdin w) < fuel)%nat ->
  exists r, select_datasets_loop catalog fuel w = Some r /\ quiet w r.2.
Proof.
  induction fuel as [|n IH]; intros w Hfuel; [lia|].
  cbn [select_datasets_loop].
  pose proof (interactive_select_round w) as Hq.
  destruct (select_round catalog w) as [[[[datasets ok] done]|e] w1] eqn:Hround;
    cbn [snd] in Hq.
  - destruct done.
    + eexists. split; [done|]. done.
    + pose proof (reads_one_select_round _ _ _ Hround) as Hlt.
      destruct (IH w1) as (r & Hr & Hq1); [lia|].
      exists r. split; [done|]. by eapply quiet_trans.
  - eexists. split; [done|]. done.
Qed.

Lemma interactive_select_datasets : interactive (select_datasets catalog).
Proof.
  intros w. unfold select_datasets.
  destruct (select_datasets_loop_enough (S (length (stdin w))) w) as (r & -> & Hq);
    [lia|done].
Qed.

End Selection.

(** ** The script body *)

Lemma try_except_interrupt_other body handler w w' e :
  body w = (Raise e, w') ->
  e <> KeyboardInterrupt ->
  try_except_interrupt body handler w = (Raise e, w').
Proof.
  intros Hbody He. unfold try_except_interrupt. rewrite Hbody.
  by destruct e.
Qed.

Section Main.

Variable catalog : dict descriptor.
Variable L : library.

(** C9 (as the code has it).  When the operator asks for weights, the
    selection returns nothing, and the operator then answers yes to
    [Quit?], [main] ends at once with [sys.exit(0)]: no further answer is
    read, the files and the stored token are as at the start, and no
    request to the remote store was made. *)
Theorem quit_after_null_selection (w w2 : world) (answer0 answer : string)
    (rest0 rest : list action) :
  stdin w = Line answer0 :: rest0 ->
  says_yes true answer0 = true ->
  select_datasets catalog (at_selection w rest0) = (Val None, w2) ->
  stdin w2 = Line answer :: rest ->
  says_yes false answer = true ->
  exists w3 : world,
    main catalog L w = (Raise (SystemExit 0), w3) /\
    stdin w3 = rest /\
    fs w3 = fs w /\
    hf_token w3 = hf_token w /\
    exists new, trace w3 = new ++ trace w /\
                Forall (fun e => is_hub e = false) new.
Proof.
  intros Hin Hyes Hsel Hin2 Hquit.
  exists (set_stdin rest (log (Prompt (prompt_text "Quit?" false)) w2)).
  split.
  - unfold main. apply try_except_interrupt_other; [|done].
    unfold introduction.
    rewrite (bind_val _ _ _ _ _ (print_run _ _)).
    rewrite (bind_val _ _ _ _ _ (print_run _ _)).
    unfold user_wants_to_download_weights.
    erewrite bind_val; [|by apply yes_or_no_line].
    rewrite Hyes. cbv beta iota.
    apply bind_raise. unfold at_selection in Hsel.
    rewrite (bind_val _ _ _ _ _ Hsel). cbv beta iota.
    apply bind_raise.
    erewrite bind_val; [|by apply yes_or_no_line].
    by rewrite Hquit.
  - pose proof (interactive_select_datasets catalog (at_selection w rest0)) as Hq.
    rewrite Hsel in Hq. cbn [snd] in Hq.
    destruct Hq as (Hfs & Htok & (new & Hnew & Hhub) & _).
    cbn [stdin fs hf_token trace set_stdin log at_selection] in *.
    split; [done|]. split; [done|]. split; [done|].
    exists (Prompt (prompt_text "Quit?" false) :: new
            ++ [Prompt (prompt_text
                  "Would you like to download the Stable Diffusion model weights now?" true);
                Print MWeightSelection; Print MIntroduction]).
    split.
    + rewrite Hnew. cbn. by rewrite <- app_assoc.
    + constructor; [done|]. apply Forall_app. split; [done|].
      by repeat constructor.
Qed.

End Main.

(** ** The script on its own catalog *)

(** C2 (the code against the claim).  From a config whose only stanza,
    [stable-diffusion-1.4], is marked default, synthesis for the success set
    made of [stable-diffusion-1.5] returns a config with two stanzas marked
    default: the old mark is not cleared. *)
Theorem synthesis_leaves_second_default :
  exists conf' : conf_t,
    synthesize Datasets shipped_conf ["stable-diffusion-1.5"] = Val conf' /\
    defaults conf' = ["stable-diffusion-1.4"; "stable-diffusion-1.5"].
Proof. eexists. split; [vm_compute; reflexivity|]. vm_compute. reflexivity. Qed.

(** C5 (the claim as stated fails).  With no config file and a success set
    of one model, [update_config_file] persists nothing: afterwards there is
    still no config file, and the error of the load is what is reported. *)
Lemma no_config_file_nothing_persisted :
  let r := update_config_file Datasets store_with_config
             [("stable-diffusion-1.5", true)] (test_world [] []) in
  r.1 = Val tt /\
  fs r.2 !! Config_file = None /\
  trace r.2 = [Print (MConfigError Config_file Config_file)].
Proof. vm_compute. done. Qed.

(** C9 (the claim as stated fails).  The operator rejects the plan and
    declines to change it, so the selection returns nothing; the answer to
    [Quit?] is the default, no; the script goes on and ends with an
    [AttributeError] that nothing catches. *)
Lemma null_selection_without_quit_raises :
  let w := test_world [] (rejecting_operator EmptyString) in
  (select_datasets Datasets
     (at_selection w (tail (rejecting_operator EmptyString)))).1 = Val None /\
  (main Datasets store_without_inpainting w).1 = Raise AttributeError.
Proof. vm_compute. done. Qed.

Lemma quit_after_null_selection_witness :
  let w := test_world [] (rejecting_operator "y") in
  exists w3 : world,
    main Datasets store_without_inpainting w = (Raise (SystemExit 0), w3) /\
    stdin w3 = [Line EmptyString] /\
    fs w3 = fs w /\
    hf_token w3 = hf_token w /\
    exists new, trace w3 = new ++ trace w /\
                Forall (fun e => is_hub e = false) new.
Proof.
  intros w.
  apply (quit_after_null_selection Datasets store_without_inpainting w
           (select_datasets Datasets
              (at_selection w (tail (rejecting_operator "y")))).2
           "y" "y" (tail (rejecting_operator "y")) [Line EmptyString]);
    vm_compute; reflexivity.
Defined.

Lemma config_load_needs_file_witness :
  update_config_file Datasets store_with_config [("stable-diffusion-1.5", true)]
    (test_world [] [])
  = (Val tt, log (Print (MConfigError Config_file Config_file)) (test_world [] [])).
Proof.
  apply (config_load_needs_file Datasets store_with_config
           [("stable-diffusion-1.5", true)] (test_world [] [])).
  reflexivity.
Defined.

Lemma merge_preserves_unmanaged_witness :
  exists conf' : conf_t,
    synthesize Datasets shipped_conf ["stable-diffusion-1.4"; "stable-diffusion-1.5"]
    = Val conf' /\
    stanza_field conf' "stable-diffusion-1.4" "note"
    = Some (YStr "added by the operator") /\
    stanza_field conf' "stable-diffusion-1.4" "weights"
    = Some (YStr "./models/ldm/stable-diffusion-v1/sd-v1-4.ckpt").
Proof.
  destruct (merge_preserves_unmanaged Datasets shipped_conf
              ["stable-diffusion-1.4"; "stable-diffusion-1.5"])
    as (conf' & Hrun & Hkept & _ & Hset).
  - repeat constructor; eexists; reflexivity.
  - repeat constructor.
  - exists conf'. split; [exact Hrun|]. split.
    + rewrite Hkept; [reflexivity|]. vm_compute.
      intros Hin. repeat (apply elem_of_cons in Hin as [Hin|Hin]; [discriminate Hin|]).
      by apply elem_of_nil in Hin.
    + destruct (Hset "stable-diffusion-1.4" sd14) as (_ & Hw & _);
        [by left | reflexivity | reflexivity | exact Hw].
Defined.

Lemma vae_path_propagation_witness :
  exists conf' : conf_t,
    synthesize two_decoders [] ["vae-1"; "model-a"; "vae-2"] = Val conf' /\
    find_vae two_decoders ["vae-1"; "model-a"; "vae-2"] None = Val (Some "second.ckpt") /\
    stanza_field conf' "model-a" "vae"
    = Some (YStr "./models/ldm/stable-diffusion-v1/second.ckpt").
Proof.
  destruct (vae_path_propagation two_decoders [] ["vae-1"; "model-a"; "vae-2"])
    as (conf' & Hrun & Hvae & Hset & _).
  - repeat constructor; eexists; reflexivity.
  - repeat constructor.
  - exists conf'. split; [exact Hrun|]. split; [exact Hvae|].
    eapply (Hset "second.ckpt"); [reflexivity | discriminate | | reflexivity | reflexivity].
    right. by left.
Defined.

Lemma empty_success_set_keeps_mapping_witness :
  let w := test_world [(Config_file, "models: as shipped")] [] in
  synthesize Datasets shipped_conf (dict_keys ([] : dict bool)) = Val shipped_conf /\
  exists w' : world,
    update_config_file Datasets store_with_config [] w = (Val tt, w') /\
    fs w' !! Config_file = Some (Config_preamble +:+ "<stable-diffusion-1.4>") /\
    fs w' !! tmpfile = None /\
    (forall p, p <> tmpfile -> p <> Config_file -> fs w' !! p = fs w !! p) /\
    trace w' = Print (MConfigCreated Config_file) :: trace w.
Proof.
  intros w.
  apply (empty_success_set_keeps_mapping Datasets store_with_config w
           "models: as shipped" shipped_conf "<stable-diffusion-1.4>");
    reflexivity.
Defined.

(** * Further properties of the script *)

(** ** Questions to the operator *)

(** X1.  [yes_or_no] reads exactly one answer and returns how it reads it;
    with no answer left it raises [EOFError], on an interrupt
    [KeyboardInterrupt]; it never fails on [response[0]]. *)
Theorem yes_or_no_outcomes (prompt : string) (default_yes : bool) (w : world) :
  let asked := log (Prompt (prompt_text prompt default_yes)) w in
  (exists answer rest,
     stdin w = Line answer :: rest /\
     yes_or_no prompt default_yes w
     = (Val (says_yes default_yes answer), set_stdin rest asked)) \/
  (stdin w = [] /\
   yes_or_no prompt default_yes w = (Raise EOFError, asked)) \/
  (exists rest,
     stdin w = Interrupt :: rest /\
     yes_or_no prompt default_yes w = (Raise KeyboardInterrupt, set_stdin rest asked)).
Proof.
  intros asked. destruct (stdin w) as [|[answer|] rest] eqn:Hin.
  - right. left. split; [done|]. by apply yes_or_no_eof.
  - left. exists answer, rest. split; [done|]. by apply yes_or_no_line.
  - right. right. exists rest. split; [done|]. by apply yes_or_no_interrupt.
Qed.

(** X2.  An answer that is empty, or begins with none of [y], [Y], [n],
    [N], gives the default of the question. *)
Theorem yes_or_no_unrecognized_is_default (prompt : string) (default_yes : bool)
    (answer : string) (rest : list action) (w : world) :
  stdin w = Line answer :: rest ->
  unrecognized answer = true ->
  yes_or_no prompt default_yes w
  = (Val default_yes,
     set_stdin rest (log (Prompt (prompt_text prompt default_yes)) w)).
Proof.
  intros Hin Hun. rewrite (yes_or_no_line _ _ answer rest) by done.
  f_equal. f_equal. unfold unrecognized in Hun.
  destruct answer as [|c answer]; [done|]. cbn.
  apply andb_true_iff in Hun as [Hy Hn].
  destruct default_yes.
  - by rewrite Hn.
  - by apply negb_true_iff in Hy.
Qed.

Lemma yes_or_no_unrecognized_is_default_witness :
  yes_or_no "Quit?" false (test_world [] [Line "maybe"])
  = (Val false,
     set_stdin [] (log (Prompt (prompt_text "Quit?" false))
                       (test_world [] [Line "maybe"]))).
Proof.
  apply (yes_or_no_unrecognized_is_default "Quit?" false "maybe" []); reflexivity.
Defined.

Lemma raises_only_bind {A B : Type} P (m : M A) (f : A -> M B) :
  raises_only P m -> (forall a, raises_only P (f a)) -> raises_only P (m ≫= f).
Proof.
  intros Hm Hf w e w' Hrun. rewrite bind_run in Hrun.
  destruct (m w) as [[a|e1] w1] eqn:Hmw.
  - by eapply Hf.
  - injection Hrun as <- <-. by eapply Hm.
Qed.

Lemma raises_only_ret {A : Type} P (a : A) : raises_only P (mret a : M A).
Proof. by intros w e w'. Qed.

Lemma raises_only_print P (m : msg) : raises_only P (print m).
Proof. by intros w e w'. Qed.

Lemma raises_only_yes_or_no prompt default_yes :
  raises_only input_ended (yes_or_no prompt default_yes).
Proof.
  intros w e w' Hrun. unfold input_ended.
  destruct (stdin w) as [|[answer|] rest] eqn:Hin.
  - rewrite yes_or_no_eof in Hrun by done. injection Hrun as <- _. by left.
  - by rewrite (yes_or_no_line _ _ answer rest) in Hrun.
  - rewrite (yes_or_no_interrupt _ _ rest) in Hrun by done.
    injection Hrun as <- _. by right.
Qed.

(** ** The selection *)

Section SelectionPlan.

Variable catalog : dict descriptor.

Lemma raises_only_ask_datasets keys : forall counter datasets,
  Forall (in_catalog catalog) keys ->
  raises_only input_ended (ask_datasets catalog keys counter datasets).
Proof.
  induction keys as [|ds rest IH]; intros counter datasets Hkeys;
    cbn [ask_datasets].
  - apply raises_only_ret.
  - apply Forall_cons in Hkeys as [[d Hd] Hkeys].
    unfold lift, Datasets_item. rewrite Hd.
    apply raises_only_bind; [by intros w e w'|]. intros d'.
    apply raises_only_bind; [apply raises_only_print|]. intros _.
    apply raises_only_bind; [apply raises_only_yes_or_no|]. intros b.
    by apply IH.
Qed.

Lemma raises_only_show_selection P datasets : forall dflt,
  raises_only P (show_selection datasets dflt).
Proof.
  induction datasets as [|[ds counter] rest IH]; intros dflt; cbn [show_selection].
  - apply raises_only_ret.
  - apply raises_only_bind; [apply raises_only_print|]. intros _. apply IH.
Qed.

Lemma catalog_keys_listed : Forall (in_catalog catalog) (dict_keys catalog).
Proof.
  apply Forall_forall. intros k Hk. by apply dict_get_is_Some.
Qed.

Lemma raises_only_select_round :
  raises_only input_ended (select_round catalog).
Proof.
  unfold select_round.
  apply raises_only_bind; [apply raises_only_print|]. intros _.
  apply raises_only_bind;
    [apply raises_only_ask_datasets, catalog_keys_listed|]. intros datasets.
  apply raises_only_bind; [apply raises_only_print|]. intros _.
  apply raises_only_bind; [apply raises_only_show_selection|]. intros _.
  apply raises_only_bind; [apply raises_only_print|]. intros _.
  apply raises_only_bind; [apply raises_only_yes_or_no|]. intros ok.
  destruct ok; cbn [negb]; [apply raises_only_ret|].
  apply raises_only_bind; [apply raises_only_yes_or_no|]. intros change.
  destruct change; apply raises_only_ret.
Qed.

(** What holds of the plan of every round holds of the plan returned. *)
Lemma select_datasets_loop_result (P : dict Z -> Prop) :
  (forall w datasets ok stop w',
     select_round catalog w = (Val (datasets, ok, stop), w') -> P datasets) ->
  forall fuel w datasets w',
    select_datasets_loop catalog fuel w = Some (Val (Some datasets), w') ->
    P datasets.
Proof.
  intros Hround. induction fuel as [|n IH]; intros w datasets w' Hloop; [done|].
  cbn [select_datasets_loop] in Hloop.
  destruct (select_round catalog w) as [[[[ds ok] stop]|e] w1] eqn:Hr; [|done].
  destruct stop.
  - destruct ok; [|done]. injection Hloop as <- <-. by eapply Hround.
  - by eapply IH.
Qed.

Lemma select_datasets_loop_raises : forall fuel w e w',
  select_datasets_loop catalog fuel w = Some (Raise e, w') -> input_ended e.
Proof.
  induction fuel as [|n IH]; intros w e w' Hloop; [done|].
  cbn [select_datasets_loop] in Hloop.
  destruct (select_round catalog w) as [[[[ds ok] stop]|e1] w1] eqn:Hr.
  - destruct stop; [done|]. by eapply IH.
  - injection Hloop as <- <-. by eapply raises_only_select_round.
Qed.

(** X3.  The selection only talks to the operator (same files, same stored
    token, no request to the remote store), and the only ways it fails are
    the end of the answers and an interrupt: its loop never runs on without
    reading, and every catalog lookup it makes succeeds. *)
Theorem select_datasets_fails_only_on_input (w : world) :
  quiet w (select_datasets catalog w).2 /\
  forall e, (select_datasets catalog w).1 = Raise e -> input_ended e.
Proof.
  split; [apply interactive_select_datasets|].
  unfold select_datasets.
  destruct (select_datasets_loop_enough catalog (S (length (stdin w))) w)
    as ([o w'] & Hloop & _); [lia|].
  rewrite Hloop. cbn [fst]. intros e ->. by eapply select_datasets_loop_raises.
Qed.

(** The names chosen in one pass over the keys, with their numbers. *)
Lemma ask_datasets_plan keys : forall counter acc w r w',
  NoDup keys ->
  (forall k, k ∈ keys -> k ∉ dict_keys acc) ->
  ask_datasets catalog keys counter acc w = (Val r, w') ->
  exists chosen,
    chosen `sublist_of` keys /\
    dict_keys r = dict_keys acc ++ chosen /\
    forall ds c,
      dict_get ds r = Some c ->
      dict_get ds acc = Some c \/
      exists i : nat, keys !! i = Some ds /\ c = counter + Z.of_nat i.
Proof.
  induction keys as [|k rest IH]; intros counter acc w r w' Hnodup Hfresh Hrun.
  - injection Hrun as <- <-. exists []. split; [done|].
    rewrite app_nil_r. split; [done|]. intros ds c Hc. by left.
  - apply NoDup_cons in Hnodup as [Hk Hnodup].
    cbn [ask_datasets] in Hrun. unfold lift in Hrun.
    rewrite bind_run in Hrun.
    destruct (Datasets_item catalog k) as [d|e]; [|done].
    rewrite bind_run in Hrun. rewrite print_run in Hrun.
    rewrite bind_run in Hrun.
    destruct (yes_or_no "    Download?" (recommended d) _) as [[b|e] w1]; [|done].
    assert (Hk_fresh : k ∉ dict_keys acc) by (apply Hfresh; by left).
    assert (Hfresh' : forall k', k' ∈ rest ->
              k' ∉ dict_keys (if b then dict_set k counter acc else acc)).
    { intros k' Hin. destruct b.
      - rewrite dict_keys_set_fresh by done. rewrite not_elem_of_app.
        split; [apply Hfresh; by right|].
        rewrite list_elem_of_singleton. by intros ->.
      - apply Hfresh. by right. }
    destruct (IH _ _ _ _ _ Hnodup Hfresh' Hrun)
      as (chosen & Hsub & Hkeys & Hvals).
    destruct b.
    + exists (k :: chosen). split; [by apply sublist_skip|]. split.
      * rewrite Hkeys, dict_keys_set_fresh by done. by rewrite <- app_assoc.
      * intros ds c Hc. destruct (Hvals ds c Hc) as [Hacc|(i & Hi & ->)].
        -- destruct (decide (k = ds)) as [->|Hne].
           ++ rewrite dict_get_set_eq in Hacc. injection Hacc as <-.
              right. exists 0%nat. split; [done|]. lia.
           ++ rewrite dict_get_set_ne in Hacc by done. by left.
        -- right. exists (S i). split; [done|]. lia.
    + exists chosen. split; [by apply sublist_cons|]. split; [done|].
      intros ds c Hc. destruct (Hvals ds c Hc) as [Hacc|(i & Hi & ->)].
      * by left.
      * right. exists (S i). split; [done|]. lia.
Qed.

Lemma select_round_plan w datasets ok stop w' :
  select_round catalog w = (Val (datasets, ok, stop), w') ->
  exists w0 w1,
    ask_datasets catalog (dict_keys catalog) 1 [] w0 = (Val datasets, w1).
Proof.
  unfold select_round. intros Hrun.
  rewrite bind_run, print_run in Hrun. rewrite bind_run in Hrun.
  destruct (ask_datasets catalog (dict_keys catalog) 1 [] _)
    as [[ds|e] w1] eqn:Hask; [|done].
  exists (log (Print MChoose) w), w1. rewrite Hask. f_equal. f_equal.
  rewrite bind_run, print_run in Hrun. rewrite bind_run in Hrun.
  destruct (show_selection ds true _) as [[[]|e] w2]; [|done].
  rewrite bind_run, print_run in Hrun. rewrite bind_run in Hrun.
  destruct (yes_or_no "Ok to download?" true _) as [[ok'|e] w3]; [|done].
  destruct ok'; cbn [negb] in Hrun.
  - by injection Hrun as <- _ _ _.
  - rewrite bind_run in Hrun.
    destruct (yes_or_no "Change your selection?" true _) as [[c|e] w4]; [|done].
    by destruct c; injection Hrun as <- _ _ _.
Qed.

(** X4.  For a catalog with distinct keys, a plan returned by the selection
    lists catalog names only, in catalog order, and maps each to its
    one-based position in the catalog. *)
Theorem selected_plan_is_from_catalog (w w' : world) (datasets : dict Z) :
  NoDup (dict_keys catalog) ->
  select_datasets catalog w = (Val (Some datasets), w') ->
  dict_keys datasets `sublist_of` dict_keys catalog /\
  Forall (in_catalog catalog) (dict_keys datasets) /\
  forall ds c,
    dict_get ds datasets = Some c ->
    exists i : nat, dict_keys catalog !! i = Some ds /\ c = 1 + Z.of_nat i.
Proof.
  intros Hnodup Hsel. unfold select_datasets in Hsel.
  destruct (select_datasets_loop catalog (S (length (stdin w))) w)
    as [r|] eqn:Hloop; [|done]. subst r.
  eapply (select_datasets_loop_result
            (fun datasets =>
               dict_keys datasets `sublist_of` dict_keys catalog /\
               Forall (in_catalog catalog) (dict_keys datasets) /\
               forall ds c,
                 dict_get ds datasets = Some c ->
                 exists i : nat, dict_keys catalog !! i = Some ds /\ c = 1 + Z.of_nat i));
    [|exact Hloop].
  clear w w' datasets Hloop. intros w datasets ok stop w' Hround.
  destruct (select_round_plan _ _ _ _ _ Hround) as (w0 & w1 & Hask).
  destruct (ask_datasets_plan (dict_keys catalog) 1 [] w0 datasets w1 Hnodup)
    as (chosen & Hsub & Hkeys & Hvals);
    [intros k _; apply not_elem_of_nil | exact Hask |].
  cbn in Hkeys. rewrite Hkeys. split; [done|]. split.
  - apply Forall_forall. intros k Hk. apply dict_get_is_Some.
    by eapply elem_of_sublist.
  - intros ds c Hc. destruct (Hvals ds c Hc) as [?|?]; done.
Qed.

End SelectionPlan.

Lemma selected_plan_is_from_catalog_witness :
  exists (datasets : dict Z) (w' : world),
    select_datasets Datasets (test_world [] accepting_operator)
    = (Val (Some datasets), w') /\
    dict_keys datasets `sublist_of` dict_keys Datasets /\
    Forall (in_catalog Datasets) (dict_keys datasets).
Proof.
  eexists _, _. split; [vm_compute; reflexivity|].
  destruct (selected_plan_is_from_catalog Datasets
              (test_world [] accepting_operator)
              (select_datasets Datasets (test_world [] accepting_operator)).2
              [("stable-diffusion-1.5", 1); ("inpainting-1.5", 2);
               ("ft-mse-improved-autoencoder-840000", 5)])
    as (Hsub & Hall & _).
  - apply (bool_decide_unpack _). vm_compute. exact I.
  - vm_compute. reflexivity.
  - split; [exact Hsub | exact Hall].
Defined.

(** ** The access token *)

Lemma authenticate_stored token answer rest w :
  hf_token w = Some token ->
  stdin w = Line answer :: rest ->
  authenticate w
  = (Val token,
     set_stdin rest
       (log (Prompt "Press <enter> when you are ready to continue:")
            (log (Print MAuthSteps) w))).
Proof.
  intros Htok Hin. unfold authenticate.
  rewrite (bind_val _ _ _ _ _ (print_run _ _)).
  unfold input, HfFolder_get_token, mbind, M_bind, mret, M_ret.
  cbn [stdin log]. rewrite Hin. cbn [hf_token set_stdin log]. by rewrite Htok.
Qed.

(** X5.  When [authenticate] returns a token, that token is the stored one
    afterwards and no file has changed; a later call, given one answer to
    its "press enter" prompt, returns the same token without asking for it
    again. *)
Theorem authenticate_stores_token (w w' : world) (token : string) :
  authenticate w = (Val token, w') ->
  hf_token w' = Some token /\
  fs w' = fs w /\
  forall answer rest,
    stdin w' = Line answer :: rest ->
    authenticate w'
    = (Val token,
       set_stdin rest
         (log (Prompt "Press <enter> when you are ready to continue:")
              (log (Print MAuthSteps) w'))).
Proof.
  intros Hrun.
  assert (Hpost : hf_token w' = Some token /\ fs w' = fs w).
  { unfold authenticate in Hrun.
    rewrite (bind_val _ _ _ _ _ (print_run _ _)) in Hrun.
    unfold input, getpass, input, HfFolder_get_token, HfFolder_save_token,
      print, emit, mbind, M_bind, mret, M_ret in Hrun.
    cbn [stdin log] in Hrun.
    destruct (stdin w) as [|[a|] rest]; try done.
    cbn [hf_token set_stdin log stdin] in Hrun.
    destruct (hf_token w) as [t|] eqn:Htok.
    - injection Hrun as <- <-. by cbn.
    - destruct rest as [|[t|] rest]; try done.
      injection Hrun as <- <-. by cbn. }
  destruct Hpost as [Htok Hfs]. split; [done|]. split; [done|].
  intros answer rest Hin. by apply (authenticate_stored token answer rest).
Qed.

Lemma authenticate_stores_token_witness :
  let w := set_hf_token None (test_world [] [Line EmptyString; Line "hf_new"]) in
  hf_token (authenticate w).2 = Some "hf_new" /\
  fs (authenticate w).2 = fs w.
Proof.
  intros w.
  destruct (authenticate_stores_token w (authenticate w).2 "hf_new")
    as (Htok & Hfs & _); [reflexivity|]. by split.
Defined.

(** ** More on the fetch *)

Section FetchMore.

Variable catalog : dict descriptor.
Variable L : library.
Variable token : string.

(** One fetch, whatever its outcome: the files before are still there with
    their content, only the destination can be new, and unless the answer
    is success the files are exactly as before. *)
Lemma conditional_download_grows repo model_name w :
  let r := conditional_download L repo model_name token w in
  fs w ⊆ fs r.2 /\
  (forall p, p <> model_dest_of model_name -> fs r.2 !! p = fs w !! p) /\
  (r.1 <> Val true -> fs r.2 = fs w).
Proof.
  destruct (fs w !! model_dest_of model_name) as [c|] eqn:Hfs.
  - rewrite conditional_download_present by (rewrite Hfs; eauto). by cbn.
  - destruct (io_fault L (SysMakedirs (posixpath.dirname (model_dest_of model_name))))
      as [detail|] eqn:Hdir.
    + by rewrite (conditional_download_makedirs_fault _ _ _ _ _ detail).
    + rewrite conditional_download_absent by done.
      destruct (hub L repo model_name token) as [content|detail]; [|by cbn].
      destruct (io_fault L (SysLink _)) as [detail|]; [by cbn|].
      cbn. split; [by apply insert_subseteq|]. split; [|done].
      intros p Hp. by rewrite lookup_insert_ne.
Qed.

(** X6.  A fetch never removes or changes a file that is there, creates at
    most the file at its own destination, and when it does not answer
    success it leaves the files exactly as they were: a failed download
    leaves nothing at the destination. *)
Theorem fetch_leaves_no_partial_file (repo model_name : string) (w : world) :
  let r := conditional_download L repo model_name token w in
  fs w ⊆ fs r.2 /\
  (forall p, p <> model_dest_of model_name -> fs r.2 !! p = fs w !! p) /\
  (r.1 <> Val true -> fs r.2 = fs w).
Proof. apply conditional_download_grows. Qed.

(** Over the loop: files only accumulate, and every name recorded is either
    one recorded before or a key of the plan whose file is there at the
    end. *)
Lemma download_each_present keys : forall successful w,
  let r := download_each catalog L keys token successful w in
  fs w ⊆ fs r.2 /\
  forall successful',
    r.1 = Val successful' ->
    forall m, m ∈ dict_keys successful' ->
      m ∈ dict_keys successful \/
      (m ∈ keys /\
       exists d, dict_get m catalog = Some d /\
                 is_Some (fs r.2 !! model_dest_of (file d))).
Proof.
  induction keys as [|k keys IH]; intros successful w.
  - cbn. split; [done|]. intros s' [= <-] m Hm. by left.
  - cbn [download_each]. unfold lift, Datasets_item.
    destruct (dict_get k catalog) as [d|] eqn:Hk.
    2:{ rewrite (bind_raise _ _ w w (KeyError k)) by done. by cbn. }
    rewrite (bind_val _ _ w w d) by done.
    pose proof (conditional_download_grows (repo_id d) (file d) w) as Hstep.
    destruct (conditional_download L (repo_id d) (file d) token w)
      as [[b|e] w1] eqn:Hrun; cbn [fst snd] in Hstep;
      destruct Hstep as (Hsub1 & _ & _).
    2:{ rewrite (bind_raise _ _ _ _ _ Hrun). by cbn. }
    rewrite (bind_val _ _ _ _ _ Hrun).
    specialize (IH (if b then dict_set k true successful else successful) w1).
    cbv zeta in IH. destruct IH as [Hsub Hrec].
    split; [by etrans|].
    intros s' Hs' m Hm. destruct (Hrec s' Hs' m Hm) as [Hold|(Hin & d' & Hd' & Hfile)].
    + destruct b; [|by left].
      destruct (decide (m = k)) as [->|Hne].
      * right. split; [by left|]. exists d. split; [done|].
        pose proof (conditional_download_success_present _ _ _ _ _ _ Hrun)
          as [c Hc].
        exists c. by eapply lookup_weaken.
      * left. apply dict_get_is_Some in Hold.
        rewrite dict_get_set_ne in Hold by done. by apply dict_get_is_Some.
    + right. split; [by right|]. by exists d'.
Qed.

(** X7.  The fetch loop never removes or changes a file, and when it
    returns, every name it recorded as successful is a name of the plan, in
    the catalog, whose weight file exists at its local path. *)
Theorem success_set_is_on_disk (keys : list string) (w w' : world)
    (successful : dict bool) :
  download_each catalog L keys token [] w = (Val successful, w') ->
  fs w ⊆ fs w' /\
  forall m, m ∈ dict_keys successful ->
    m ∈ keys /\
    exists d, dict_get m catalog = Some d /\
              is_Some (fs w' !! model_dest_of (file d)).
Proof.
  intros Hrun. pose proof (download_each_present keys [] w) as Hloop.
  cbv zeta in Hloop. rewrite Hrun in Hloop. cbn [fst snd] in Hloop.
  destruct Hloop as [Hsub Hrec]. split; [done|].
  intros m Hm. destruct (Hrec successful eq_refl m Hm) as [Hnil|?]; [|done].
  by apply elem_of_nil in Hnil.
Qed.

(** X8.  [os.makedirs] is called outside the [try]: when it fails for an
    item whose file is not there, the loop stops with that error at once,
    from whatever it had recorded, and the items after it are never
    attempted. *)
Theorem makedirs_failure_aborts_the_plan (m : string) (d : descriptor)
    (rest : list string) (successful : dict bool) (detail : string) (w : world) :
  dict_get m catalog = Some d ->
  fs w !! model_dest_of (file d) = None ->
  io_fault L (SysMakedirs (posixpath.dirname (model_dest_of (file d)))) = Some detail ->
  download_each catalog L (m :: rest) token successful w
  = (Raise (OSError detail), w).
Proof.
  intros Hm Habs Hdir. cbn [download_each]. unfold lift, Datasets_item.
  rewrite Hm. rewrite (bind_val _ _ w w d) by done.
  by rewrite (bind_raise _ _ _ _ _
                (conditional_download_makedirs_fault L _ _ token w detail Habs Hdir)).
Qed.

(** X9.  The rename of the legacy step is not guarded either: when the
    deprecated file is there, the operator consents and the rename fails,
    [download_weight_datasets] ends with that error before any fetch; the
    files are as before and no request to the remote store was made. *)
Theorem legacy_rename_failure_aborts (d14 : descriptor) (models : option (dict Z))
    (answer detail : string) (rest : list action) (w : world) :
  dict_get "stable-diffusion-1.4" catalog = Some d14 ->
  is_Some (fs w !! legacy_path) ->
  stdin w = Line answer :: rest ->
  says_yes true answer = true ->
  io_fault L (SysRename legacy_path (model_dest_of (file d14))) = Some detail ->
  exists w' : world,
    download_weight_datasets catalog L models token w = (Raise (OSError detail), w') /\
    fs w' = fs w /\
    trace w' = [Print (MRenaming (file d14));
                Prompt (prompt_text (rename_prompt (file d14)) true);
                Print MLegacyFound] ++ trace w.
Proof.
  intros Hcat Hin Hstdin Hyes Hio. eexists. split.
  - unfold download_weight_datasets. apply bind_raise.
    unfold migrate_models_ckpt.
    rewrite (bind_val _ _ w w true).
    2:{ rewrite os_path_exists_run. by rewrite bool_decide_eq_true_2. }
    cbv beta iota. cbn [negb].
    unfold lift, Datasets_item. rewrite Hcat.
    rewrite (bind_val _ _ w w d14) by done.
    rewrite (bind_val _ _ w (log (Print MLegacyFound) w) tt) by done.
    erewrite bind_val; [|by apply yes_or_no_line].
    rewrite Hyes.
    erewrite bind_val; [|by apply print_run].
    by apply os_rename_fault.
  - by cbn.
Qed.

End FetchMore.

(** ** More on the synthesis *)

Section DictMore.
Context {V : Type}.
Implicit Types (d : dict V) (k : string) (v : V).

Lemma dict_set_same k v d : dict_get k d = Some v -> dict_set k v d = d.
Proof.
  induction d as [|[k' v'] d IH]; cbn; [done|].
  destruct (String.eqb_spec k k') as [->|Hne].
  - by intros [= ->].
  - intros Hget. by rewrite IH.
Qed.

Lemma dict_pop_absent k d : dict_get k d = None -> dict_pop k d = d.
Proof.
  induction d as [|[k' v'] d IH]; cbn; [done|].
  destruct (String.eqb k k'); [done|]. intros Hget. by rewrite IH.
Qed.

Lemma dict_pop_set_fresh k v d :
  dict_get k d = None -> dict_pop k (dict_set k v d) = d.
Proof.
  induction d as [|[k' v'] d IH]; cbn.
  - by rewrite String.eqb_refl.
  - destruct (String.eqb k k') eqn:E; [done|]. intros Hget.
    cbn. rewrite E. by rewrite IH.
Qed.

End DictMore.

(** Writing the same stanza twice is writing it once. *)
Lemma write_stanza_idem d vae default_selected st :
  write_stanza d vae default_selected (write_stanza d vae default_selected st)
  = write_stanza d vae default_selected st.
Proof.
  unfold write_stanza at 1.
  rewrite (dict_set_same "description") by apply write_stanza_description.
  rewrite (dict_set_same "weights") by apply write_stanza_weights.
  rewrite (dict_set_same "config") by apply write_stanza_config.
  rewrite (dict_set_same "width") by apply write_stanza_width.
  rewrite (dict_set_same "height") by apply write_stanza_height.
  unfold write_stanza.
  set (t5 := dict_set "height" _ _).
  set (t6 := dict_pop "default" t5).
  assert (H6 : dict_get "default" t6 = None) by apply dict_get_pop_eq.
  assert (H7 : forall x, dict_get "default" (dict_set "vae" x t6) = None).
  { intros x. by rewrite dict_get_set_ne. }
  assert (Hvae : forall x, dict_set "vae" x (dict_set "vae" x t6) = dict_set "vae" x t6).
  { intros x. apply dict_set_same, dict_get_set_eq. }
  destruct vae as [v|]; [destruct (posixpath.is_empty v)|];
    destruct default_selected; cbv zeta.
  - by rewrite dict_pop_absent.
  - by rewrite dict_pop_set_fresh.
  - by rewrite dict_pop_absent, Hvae.
  - by rewrite dict_pop_set_fresh, Hvae.
  - by rewrite dict_pop_absent.
  - by rewrite dict_pop_set_fresh.
Qed.

Section SynthesisMore.

Variable catalog : dict descriptor.

Lemma add_stanzas_keys vae : forall models default_selected conf conf',
  add_stanzas catalog models vae default_selected conf = Val conf' ->
  exists new,
    dict_keys conf' = dict_keys conf ++ new /\
    forall n, n ∈ new ->
      n ∈ models /\ is_model catalog n = true /\ n ∉ dict_keys conf.
Proof.
  induction models as [|h rest IH]; intros default_selected conf conf' Hrun.
  - injection Hrun as <-. exists []. rewrite app_nil_r. split; [done|].
    by intros n ?%elem_of_nil.
  - destruct (dict_get h catalog) as [dh|] eqn:Hdh.
    2:{ by rewrite add_stanzas_unlisted in Hrun. }
    destruct (is_vae dh) eqn:Hvh.
    { rewrite (add_stanzas_skip _ _ _ _ _ _ dh) in Hrun by done.
      destruct (IH _ _ _ Hrun) as (new & Hkeys & Hnew).
      exists new. split; [done|]. intros n Hn.
      destruct (Hnew n Hn) as (? & ? & ?). split; [by right|done]. }
    assert (Hh : is_model catalog h = true).
    { unfold is_model. by rewrite Hdh, Hvh. }
    rewrite (add_stanzas_step _ _ _ _ _ _ dh) in Hrun by done.
    destruct (dict_get h conf) as [node|] eqn:Hnode.
    + destruct node as [| | | | |st]; try done.
      destruct (IH _ _ _ Hrun) as (new & Hkeys & Hnew).
      assert (Hin : h ∈ dict_keys conf).
      { apply dict_get_is_Some. rewrite Hnode. eauto. }
      rewrite dict_keys_set_present in Hkeys, Hnew by done.
      exists new. split; [done|]. intros n Hn.
      destruct (Hnew n Hn) as (? & ? & ?). split; [by right|done].
    + destruct (IH _ _ _ Hrun) as (new & Hkeys & Hnew).
      assert (Hout : h ∉ dict_keys conf) by by apply dict_get_None.
      rewrite dict_keys_set_fresh in Hkeys, Hnew by done.
      exists (h :: new). split; [by rewrite Hkeys, <- app_assoc|].
      intros n [->|Hn]%elem_of_cons.
      * split; [by left|done].
      * destruct (Hnew n Hn) as (? & ? & Hno). split; [by right|].
        split; [done|]. rewrite not_elem_of_app in Hno. tauto.
Qed.

(** X10.  Synthesis never removes or reorders stanzas: the names of the old
    config come first, in their old order, and the names after them are
    models of the success set that had no stanza. *)
Theorem synthesis_appends_new_stanzas (conf conf' : conf_t) (models : list string) :
  synthesize catalog conf models = Val conf' ->
  exists new,
    dict_keys conf' = dict_keys conf ++ new /\
    forall n, n ∈ new ->
      n ∈ models /\ is_model catalog n = true /\ n ∉ dict_keys conf.
Proof.
  unfold synthesize.
  destruct (find_vae catalog models None) as [vae|e]; [|done].
  cbn. apply add_stanzas_keys.
Qed.

Lemma settled_run vae : forall models default_selected conf,
  settled catalog vae models default_selected conf ->
  add_stanzas catalog models vae default_selected conf = Val conf.
Proof.
  induction models as [|h rest IH]; intros default_selected conf Hs; [done|].
  cbn [settled] in Hs.
  destruct (dict_get h catalog) as [dh|] eqn:Hdh; [|done].
  destruct (is_vae dh) eqn:Hvh.
  { rewrite (add_stanzas_skip _ _ _ _ _ _ dh) by done. by apply IH. }
  destruct Hs as [(st & Hst & Hfix) Hrest].
  rewrite (add_stanzas_step _ _ _ _ _ _ dh) by done.
  rewrite Hst, Hfix. rewrite dict_set_same by done. by apply IH.
Qed.

Lemma settled_other vae name node : forall models default_selected conf,
  name ∉ models ->
  settled catalog vae models default_selected conf ->
  settled catalog vae models default_selected (dict_set name node conf).
Proof.
  induction models as [|h rest IH]; intros default_selected conf Hname Hs; [done|].
  apply not_elem_of_cons in Hname as [Hne Hname].
  cbn [settled] in *.
  destruct (dict_get h catalog) as [dh|]; [|done].
  destruct (is_vae dh); [by apply IH|].
  destruct Hs as [(st & Hst & Hfix) Hrest]. split; [|by apply IH].
  exists st. by rewrite dict_get_set_ne.
Qed.

Lemma add_stanzas_settles vae : forall models default_selected conf conf',
  NoDup models ->
  add_stanzas catalog models vae default_selected conf = Val conf' ->
  settled catalog vae models default_selected conf'.
Proof.
  induction models as [|h rest IH]; intros default_selected conf conf' Hnodup Hrun;
    [done|].
  apply NoDup_cons in Hnodup as [Hh Hnodup]. cbn [settled].
  destruct (dict_get h catalog) as [dh|] eqn:Hdh.
  2:{ by rewrite add_stanzas_unlisted in Hrun. }
  destruct (is_vae dh) eqn:Hvh.
  { rewrite (add_stanzas_skip _ _ _ _ _ _ dh) in Hrun by done. by eapply IH. }
  rewrite (add_stanzas_step _ _ _ _ _ _ dh) in Hrun by done.
  assert (Hstep : forall st,
    add_stanzas catalog rest vae true
      (dict_set h (YMap (write_stanza dh vae default_selected st)) conf) = Val conf' ->
    (exists st', dict_get h conf' = Some (YMap st')
                 /\ write_stanza dh vae default_selected st' = st')
    /\ settled catalog vae rest true conf').
  { intros st Hrest. split; [|by eapply IH].
    exists (write_stanza dh vae default_selected st). split.
    - rewrite (add_stanzas_other _ _ _ _ _ _ Hrest h) by done.
      by rewrite dict_get_set_eq.
    - apply write_stanza_idem. }
  destruct (dict_get h conf) as [[| | | | |st]|]; try done; by eapply Hstep.
Qed.

(** X11.  Synthesis is idempotent: for a success set without repeats,
    running it again on its own result returns that result unchanged. *)
Theorem synthesis_is_idempotent (conf conf' : conf_t) (models : list string) :
  NoDup models ->
  synthesize catalog conf models = Val conf' ->
  synthesize catalog conf' models = Val conf'.
Proof.
  intros Hnodup. unfold synthesize.
  destruct (find_vae catalog models None) as [vae|e]; [|done]. cbn.
  intros Hrun. apply settled_run. by eapply add_stanzas_settles.
Qed.

Lemma find_vae_decoders models :
  Forall (fun m => exists d, dict_get m catalog = Some d /\ is_vae d = true) models ->
  forall vae, exists vae', find_vae catalog models vae = Val vae'.
Proof.
  induction 1 as [|m rest (d & Hd & Hv) Hrest IH]; intros vae; [by eexists|].
  cbn [find_vae]. unfold Datasets_item. rewrite Hd. cbn. apply IH.
Qed.

Lemma add_stanzas_decoders models :
  Forall (fun m => exists d, dict_get m catalog = Some d /\ is_vae d = true) models ->
  forall vae default_selected conf,
    add_stanzas catalog models vae default_selected conf = Val conf.
Proof.
  induction 1 as [|m rest (d & Hd & Hv) Hrest IH]; intros vae ds conf; [done|].
  rewrite (add_stanzas_skip _ _ _ _ _ _ d) by done. apply IH.
Qed.

(** X12.  A success set made of auxiliary decoders only leaves the mapping
    exactly as it was loaded: decoders never get a stanza. *)
Theorem decoders_only_change_nothing (conf : conf_t) (models : list string) :
  Forall (fun m => exists d, dict_get m catalog = Some d /\ is_vae d = true) models ->
  synthesize catalog conf models = Val conf.
Proof.
  intros Hall. unfold synthesize.
  destruct (find_vae_decoders models Hall None) as [vae ->]. cbn.
  by apply add_stanzas_decoders.
Qed.



(** X14.  When the success set holds a name that is not in the catalog,
    synthesis ends with the [KeyError] of the first such name, before any
    stanza is written. *)
Theorem unknown_name_is_a_key_error (conf : conf_t) (known unknown_tail : list string)
    (k : string) :
  Forall (in_catalog catalog) known ->
  dict_get k catalog = None ->
  synthesize catalog conf (known ++ k :: unknown_tail) = Raise (KeyError k).
Proof.
  intros Hknown Hk. unfold synthesize.
  assert (Hvae : forall vae,
    find_vae catalog (known ++ k :: unknown_tail) vae = Raise (KeyError k)).
  { induction Hknown as [|h rest [dh Hdh] Hrest IH]; intros vae; cbn [app find_vae];
      unfold Datasets_item.
    - by rewrite Hk.
    - rewrite Hdh. cbn. apply IH. }
  by rewrite Hvae.
Qed.

End SynthesisMore.

(** ** More on persisting *)

Section PersistMore.

Variable catalog : dict descriptor.
Variable L : library.

(** X15.  Nothing removes the temporary file when a later step fails: if
    the serialized text cannot be written, [update_config_file] reports the
    error, the config file is as before, and the temporary file stays
    behind holding the preamble only. *)
Theorem failed_write_leaves_temporary_file (successfully_downloaded : dict bool)
    (w : world) (text detail : string) :
  new_config_file_contents catalog L successfully_downloaded w = (Val text, w) ->
  io_fault L (SysOpenW tmpfile) = None ->
  io_fault L (SysWrite tmpfile Config_preamble) = None ->
  io_fault L (SysWrite tmpfile text) = Some detail ->
  exists w' : world,
    update_config_file catalog L successfully_downloaded w = (Val tt, w') /\
    fs w' !! tmpfile = Some Config_preamble /\
    fs w' !! Config_file = fs w !! Config_file /\
    trace w' = Print (MConfigError Config_file detail) :: trace w.
Proof.
  intros Hn H1 H2 H3. pose proof tmpfile_ne as Hne.
  rewrite update_config_file_run, Hn. cbn [fst]. rewrite H1, H2, H3.
  unfold reported. eexists. split; [done|]. cbn [fs set_fs log trace].
  split; [apply lookup_insert_eq|]. split; [|done].
  by rewrite !lookup_insert_ne.
Qed.

End PersistMore.

Lemma failed_write_leaves_temporary_file_witness :
  let L := test_library EmptyString [("models: as shipped", shipped_conf)]
             full_after_preamble in
  let w := test_world [(Config_file, "models: as shipped")] [] in
  exists w' : world,
    update_config_file Datasets L [] w = (Val tt, w') /\
    fs w' !! tmpfile = Some Config_preamble /\
    fs w' !! Config_file = Some "models: as shipped" /\
    trace w' = [Print (MConfigError Config_file "No space left on device")].
Proof.
  intros L w.
  apply (failed_write_leaves_temporary_file Datasets L [] w
           "<stable-diffusion-1.4>" "No space left on device"); reflexivity.
Defined.

(** ** Local paths *)

Lemma list_ascii_of_string_app (a b : string) :
  String.list_ascii_of_string (a +:+ b)
  = String.list_ascii_of_string a ++ String.list_ascii_of_string b.
Proof.
  induction a as [|c a IH]; [done|].
  change (c :: String.list_ascii_of_string (a +:+ b)
          = c :: (String.list_ascii_of_string a ++ String.list_ascii_of_string b)).
  by rewrite IH.
Qed.

Lemma drop_while_app_all (p : ascii -> bool) (l1 l2 : list ascii) :
  (forall c, In c l1 -> p c = true) ->
  posixpath.drop_while p (l1 ++ l2) = posixpath.drop_while p l2.
Proof.
  induction l1 as [|c l1 IH]; intros Hall; [done|].
  cbn. rewrite Hall by (by left). apply IH. intros c' Hc'. apply Hall. by right.
Qed.

Lemma plain_name_not_absolute (name : string) :
  plain_name name = true -> posixpath.startswith_sep name = false.
Proof.
  destruct name as [|c name]; [done|]. unfold plain_name. cbn.
  intros [Hc _]%andb_true_iff. by apply negb_true_iff in Hc.
Qed.

(** X16.  For a file name without a separator, the local path is the models
    directory followed by the name, and its directory, the one that
    [conditional_download] makes, is the models directory itself. *)
Theorem local_path_of_plain_name (name : string) :
  plain_name name = true ->
  model_dest_of name = Model_dir +:+ name /\
  posixpath.dirname (model_dest_of name) = "./models/ldm/stable-diffusion-v1".
Proof.
  intros Hplain.
  assert (Hdest : model_dest_of name = Model_dir +:+ name).
  { unfold model_dest_of, posixpath.join.
    by rewrite plain_name_not_absolute. }
  split; [done|]. rewrite Hdest. unfold posixpath.dirname.
  rewrite list_ascii_of_string_app, List.rev_app_distr.
  rewrite drop_while_app_all; [reflexivity|].
  intros c Hc. apply List.in_rev in Hc.
  unfold plain_name in Hplain. rewrite List.forallb_forall in Hplain.
  by apply Hplain.
Qed.

Lemma local_path_of_plain_name_witness :
  model_dest_of "sd-v1-4.ckpt" = Model_dir +:+ "sd-v1-4.ckpt" /\
  posixpath.dirname (model_dest_of "sd-v1-4.ckpt")
  = "./models/ldm/stable-diffusion-v1".
Proof. apply (local_path_of_plain_name "sd-v1-4.ckpt"). reflexivity. Defined.

(** X17.  Two file names that do not begin with a separator have the same
    local path only if they are the same name: distinct catalog files never
    collide on disk. *)
Theorem local_path_is_injective (a b : string) :
  posixpath.startswith_sep a = false ->
  posixpath.startswith_sep b = false ->
  model_dest_of a = model_dest_of b ->
  a = b.
Proof.
  intros Ha Hb. unfold model_dest_of, posixpath.join. rewrite Ha, Hb.
  cbn. intros Heq. by simplify_eq.
Qed.

Lemma local_path_is_injective_witness :
  model_dest_of "sd-v1-4.ckpt" <> model_dest_of "v1-5-pruned-emaonly.ckpt".
Proof.
  intros Heq.
  apply (local_path_is_injective "sd-v1-4.ckpt" "v1-5-pruned-emaonly.ckpt") in Heq;
    [discriminate Heq | reflexivity | reflexivity].
Defined.

(** ** More on the script body *)

Lemma try_except_interrupt_ext body body' handler w w' :
  body w = body' w' ->
  try_except_interrupt body handler w = try_except_interrupt body' handler w'.
Proof. intros H. unfold try_except_interrupt. by rewrite H. Qed.

Section MainMore.

Variable catalog : dict descriptor.
Variable L : library.

(** X18.  When the operator declines to download weights, [main] goes
    straight to the support models: from the state reached after the first
    question it runs the support downloads and the postscript and nothing
    else; there is no selection, no authentication, no fetch and no config
    update. *)
Theorem declining_weights_skips_to_support (w : world) (answer : string)
    (rest : list action) :
  stdin w = Line answer :: rest ->
  says_yes true answer = false ->
  main catalog L w
  = try_except_interrupt
      (print MDownloadingSupport;; download_support_models L;; postscript)
      (print MGoodbye)
      (at_selection w rest).
Proof.
  intros Hin Hno. unfold main. apply try_except_interrupt_ext.
  unfold introduction.
  rewrite (bind_val _ _ _ _ _ (print_run _ _)).
  rewrite (bind_val _ _ _ _ _ (print_run _ _)).
  unfold user_wants_to_download_weights.
  erewrite bind_val; [|by apply yes_or_no_line].
  rewrite Hno. cbv beta iota.
  by rewrite (bind_val _ _ _ _ tt (eq_refl : (mret tt : M unit) _ = _)).
Qed.

(** X19.  An interrupt at the first question ends [main] normally after the
    farewell line; the end of the input at that question is not caught and
    [main] ends with [EOFError].  In both cases no file has changed. *)
Theorem first_question_interrupt_and_eof (w : world) :
  let asked :=
    log (Prompt (prompt_text
           "Would you like to download the Stable Diffusion model weights now?" true))
      (log (Print MWeightSelection) (log (Print MIntroduction) w)) in
  (forall rest,
     stdin w = Interrupt :: rest ->
     main catalog L w = (Val tt, log (Print MGoodbye) (set_stdin rest asked))) /\
  (stdin w = [] -> main catalog L w = (Raise EOFError, asked)).
Proof.
  intros asked. split.
  - intros rest Hin. unfold main, try_except_interrupt.
    unfold introduction.
    rewrite (bind_val _ _ _ _ _ (print_run _ _)).
    rewrite (bind_val _ _ _ _ _ (print_run _ _)).
    unfold user_wants_to_download_weights.
    erewrite bind_raise; [|by apply yes_or_no_interrupt]. done.
  - intros Hin. unfold main. apply try_except_interrupt_other; [|done].
    unfold introduction.
    rewrite (bind_val _ _ _ _ _ (print_run _ _)).
    rewrite (bind_val _ _ _ _ _ (print_run _ _)).
    unfold user_wants_to_download_weights.
    by erewrite bind_raise; [|by apply yes_or_no_eof].
Qed.

(** X20.  When the selection returns nothing and the operator does not
    answer yes to [Quit?], [main] goes on: it authenticates, runs the
    legacy step, and then ends with the [AttributeError] of
    [models.keys()], which nothing catches; no fetch is made and the config
    is not updated. *)
Theorem null_selection_declined_quit_raises (w w2 w4 w5 : world)
    (answer0 answer token : string) (rest0 rest : list action) :
  stdin w = Line answer0 :: rest0 ->
  says_yes true answer0 = true ->
  select_datasets catalog (at_selection w rest0) = (Val None, w2) ->
  stdin w2 = Line answer :: rest ->
  says_yes false answer = false ->
  authenticate
    (log (Print MLicenseAgreement)
       (set_stdin rest (log (Prompt (prompt_text "Quit?" false)) w2)))
  = (Val token, w4) ->
  migrate_models_ckpt catalog L (log (Print MDownloadingWeights) w4) = (Val tt, w5) ->
  main catalog L w = (Raise AttributeError, w5).
Proof.
  intros Hin Hyes Hsel Hin2 Hquit Hauth Hmig.
  unfold main. apply try_except_interrupt_other; [|done].
  unfold introduction.
  rewrite (bind_val _ _ _ _ _ (print_run _ _)).
  rewrite (bind_val _ _ _ _ _ (print_run _ _)).
  unfold user_wants_to_download_weights.
  erewrite bind_val; [|by apply yes_or_no_line].
  rewrite Hyes. cbv beta iota.
  apply bind_raise. unfold at_selection in Hsel.
  rewrite (bind_val _ _ _ _ _ Hsel). cbv beta iota.
  erewrite bind_val.
  2:{ erewrite bind_val; [|by apply yes_or_no_line]. rewrite Hquit. reflexivity. }
  rewrite (bind_val _ _ _ _ _ (print_run _ _)).
  rewrite (bind_val _ _ _ _ _ Hauth).
  rewrite (bind_val _ _ _ _ _ (print_run _ _)).
  apply bind_raise. unfold download_weight_datasets.
  rewrite (bind_val _ _ _ _ _ Hmig).
  by apply bind_raise.
Qed.

End MainMore.

Lemma declining_weights_skips_to_support_witness :
  main Datasets store_without_inpainting (test_world [] [Line "n"])
  = try_except_interrupt
      (print MDownloadingSupport;;
       download_support_models store_without_inpainting;; postscript)
      (print MGoodbye)
      (at_selection (test_world [] [Line "n"]) []).
Proof.
  apply (declining_weights_skips_to_support Datasets store_without_inpainting
           (test_world [] [Line "n"]) "n" []); reflexivity.
Defined.

Lemma first_question_interrupt_and_eof_witness :
  (main Datasets store_without_inpainting (test_world [] [Interrupt])).1 = Val tt /\
  (main Datasets store_without_inpainting (test_world [] [])).1 = Raise EOFError.
Proof.
  split.
  - destruct (first_question_interrupt_and_eof Datasets store_without_inpainting
                (test_world [] [Interrupt])) as [Hint _].
    by rewrite (Hint []).
  - destruct (first_question_interrupt_and_eof Datasets store_without_inpainting
                (test_world [] [])) as [_ Heof].
    by rewrite Heof.
Defined.

Lemma null_selection_declined_quit_raises_witness :
  (main Datasets store_without_inpainting
     (test_world [] (rejecting_operator "n"))).1 = Raise AttributeError.
Proof.
  set (w := test_world [] (rejecting_operator "n")).
  set (w2 := (select_datasets Datasets
                (at_selection w (tail (rejecting_operator "n")))).2).
  set (w3 := log (Print MLicenseAgreement)
               (set_stdin [Line EmptyString]
                  (log (Prompt (prompt_text "Quit?" false)) w2))).
  set (w4 := (authenticate w3).2).
  set (w5 := (migrate_models_ckpt Datasets store_without_inpainting
                (log (Print MDownloadingWeights) w4)).2).
  rewrite (null_selection_declined_quit_raises Datasets store_without_inpainting
             w w2 w4 w5 "y" "n" "hf_secret"
             (tail (rejecting_operator "n")) [Line EmptyString]);
    [reflexivity | vm_compute; reflexivity ..].
Defined.

(** ** The further properties on the script's own catalog *)

Lemma success_set_is_on_disk_witness :
  let r := download_each Datasets store_without_inpainting
             ["stable-diffusion-1.5"; "inpainting-1.5"] "hf_secret" []
             (test_world [] []) in
  r.1 = Val [("stable-diffusion-1.5", true)] /\
  forall m, m ∈ ["stable-diffusion-1.5"] ->
    m ∈ ["stable-diffusion-1.5"; "inpainting-1.5"] /\
    exists d, dict_get m Datasets = Some d /\
              is_Some (fs r.2 !! model_dest_of (file d)).
Proof.
  intros r. split; [vm_compute; reflexivity|].
  destruct (success_set_is_on_disk Datasets store_without_inpainting "hf_secret"
              ["stable-diffusion-1.5"; "inpainting-1.5"] (test_world [] []) r.2
              [("stable-diffusion-1.5", true)]) as [_ Hdisk];
    [vm_compute; reflexivity|].
  exact Hdisk.
Defined.

Lemma makedirs_failure_aborts_the_plan_witness :
  download_each Datasets (test_library EmptyString [] makedirs_denied)
    ["stable-diffusion-1.5"; "inpainting-1.5"] "hf_secret" [] (test_world [] [])
  = (Raise (OSError "Permission denied"), test_world [] []).
Proof.
  apply (makedirs_failure_aborts_the_plan Datasets
           (test_library EmptyString [] makedirs_denied) "hf_secret"
           "stable-diffusion-1.5" sd15); reflexivity.
Defined.

Lemma legacy_rename_failure_aborts_witness :
  let w := test_world [(legacy_path, "old weights")] [Line EmptyString] in
  exists w' : world,
    download_weight_datasets Datasets (test_library EmptyString [] rename_denied)
      (Some models3) "hf_secret" w
    = (Raise (OSError "Permission denied"), w') /\
    fs w' = fs w /\
    trace w' = [Print (MRenaming (file sd14));
                Prompt (prompt_text (rename_prompt (file sd14)) true);
                Print MLegacyFound] ++ trace w.
Proof.
  intros w.
  apply (legacy_rename_failure_aborts Datasets
           (test_library EmptyString [] rename_denied) "hf_secret" sd14
           (Some models3) EmptyString "Permission denied" []);
    try reflexivity.
  exists "old weights". reflexivity.
Defined.

Lemma synthesis_appends_new_stanzas_witness :
  exists (conf' : conf_t) (new : list string),
    synthesize Datasets shipped_conf ["stable-diffusion-1.5"] = Val conf' /\
    dict_keys conf' = dict_keys shipped_conf ++ new.
Proof.
  destruct (synthesize Datasets shipped_conf ["stable-diffusion-1.5"])
    as [conf'|e] eqn:Hrun; [|vm_compute in Hrun; discriminate Hrun].
  destruct (synthesis_appends_new_stanzas Datasets shipped_conf conf'
              ["stable-diffusion-1.5"] Hrun) as (new & Hkeys & _).
  by exists conf', new.
Defined.

Lemma synthesis_is_idempotent_witness :
  exists conf' : conf_t,
    synthesize Datasets shipped_conf
      ["stable-diffusion-1.5"; "ft-mse-improved-autoencoder-840000";
       "stable-diffusion-1.4"] = Val conf' /\
    synthesize Datasets conf'
      ["stable-diffusion-1.5"; "ft-mse-improved-autoencoder-840000";
       "stable-diffusion-1.4"] = Val conf'.
Proof.
  destruct (synthesize Datasets shipped_conf
              ["stable-diffusion-1.5"; "ft-mse-improved-autoencoder-840000";
               "stable-diffusion-1.4"])
    as [conf'|e] eqn:Hrun; [|vm_compute in Hrun; discriminate Hrun].
  exists conf'. split; [reflexivity|].
  apply (synthesis_is_idempotent Datasets shipped_conf); [|exact Hrun].
  apply (bool_decide_unpack _). vm_compute. exact I.
Defined.

Lemma decoders_only_change_nothing_witness :
  synthesize Datasets shipped_conf ["ft-mse-improved-autoencoder-840000"]
  = Val shipped_conf.
Proof.
  apply (decoders_only_change_nothing Datasets).
  repeat constructor. eexists. split; reflexivity.
Defined.


Lemma unknown_name_is_a_key_error_witness :
  synthesize Datasets shipped_conf
    (["stable-diffusion-1.5"] ++ "no-such-model" :: ["stable-diffusion-1.4"])
  = Raise (KeyError "no-such-model").
Proof.
  apply (unknown_name_is_a_key_error Datasets).
  - repeat constructor. eexists. reflexivity.
  - reflexivity.
Defined.

(** X21.  For a success set without repeats whose names are in the catalog
    and whose entries are mappings: when no stanza other than those of the
    models of the success set is marked default before, exactly one stanza
    is marked default afterwards, the one of the first model of the success
    set. *)
Theorem single_default_when_none_outside (catalog : dict descriptor)
    (conf : conf_t) (models : list string) (m : string) :
  NoDup models ->
  Forall (in_catalog catalog) models ->
  Forall (mapping_or_absent conf) models ->
  first_model catalog models = Some m ->
  (forall name, ~ (name ∈ models /\ is_model catalog name = true) ->
                stanza_field conf name "default" <> Some (YBool true)) ->
  exists conf',
    synthesize catalog conf models = Val conf' /\
    forall name,
      stanza_field conf' name "default" = Some (YBool true) <-> name = m.
Proof. apply one_default_when_none_outside. Qed.

Lemma single_default_when_none_outside_witness :
  exists conf' : conf_t,
    synthesize Datasets shipped_conf ["stable-diffusion-1.5"; "stable-diffusion-1.4"]
    = Val conf' /\
    forall name,
      stanza_field conf' name "default" = Some (YBool true)
      <-> name = "stable-diffusion-1.5".
Proof.
  apply (single_default_when_none_outside Datasets shipped_conf
           ["stable-diffusion-1.5"; "stable-diffusion-1.4"]).
  - apply (bool_decide_unpack _). vm_compute. exact I.
  - repeat constructor; eexists; reflexivity.
  - repeat constructor.
  - reflexivity.
  - intros name Hout Hdef. unfold stanza_field in Hdef. cbn in Hdef.
    destruct (String.eqb_spec name "stable-diffusion-1.4") as [->|Hne];
      [|discriminate Hdef].
    apply Hout. split; [|reflexivity]. right. by left.
Defined.
